(** * ttb: a shallow embedding of [main.py]

    The chat bot of [main.py] cleans every message ([TextCleaner.clean_text]),
    tests it against the configured spam patterns ([SpamDetector.is_spam]) and,
    when it is not spam, answers the first configured trigger word found among
    its tokens, at most once per [response_delay] seconds
    ([WordMonitorBot.event_message]).  Six chat commands edit the configuration.

    Python strings are sequences of Unicode code points; they are modelled as
    lists of code points ([N]).  The two operations that consult the Unicode
    character database, [str.lower] and [unicodedata.normalize("NFKD", _)], are
    not part of [main.py]: they are taken as the operations of a class
    [UnicodeDB], together with the two facts about them that hold on ASCII-only
    text.  Everything else is defined from the source, line by line. *)

From Stdlib Require Import List NArith Bool Lia Ascii String QArith Lqa.
Import ListNotations.

Set Implicit Arguments.
Local Open Scope N_scope.
Local Open Scope list_scope.

(** ** Strings *)

Definition codepoint := N.
Definition pystr := list codepoint.

(** A literal of the source, written as a Rocq string of ASCII characters. *)
Definition str (s : string) : pystr := map N_of_ascii (list_ascii_of_string s).

Definition pystr_eqb (s t : pystr) : bool :=
  if list_eq_dec N.eq_dec s t then true else false.

(** [s.startswith(p)] *)
Fixpoint startswith (s p : pystr) : bool :=
  match p, s with
  | [], _ => true
  | _ :: _, [] => false
  | a :: p', b :: s' => (a =? b) && startswith s' p'
  end.

(** [p in s] for two strings: [p] occurs in [s] as a contiguous substring. *)
Fixpoint contains (s p : pystr) : bool :=
  startswith s p ||
  match s with
  | [] => false
  | _ :: s' => contains s' p
  end.

(** [x in l] for a list of strings. *)
Definition mem (x : pystr) (l : list pystr) : bool := existsb (pystr_eqb x) l.

Definition is_ascii (c : codepoint) : bool := c <? 128.
Definition is_upper (c : codepoint) : bool := (65 <=? c) && (c <=? 90).

(** [str.lower] on an ASCII character: 'A'..'Z' move to 'a'..'z'. *)
Definition ascii_lower (c : codepoint) : codepoint :=
  if is_upper c then c + 32 else c.

(** The Unicode character database of the Python runtime, as far as
    [main.py] uses it. On text that is ASCII only, [str.lower] maps each letter
    'A'..'Z' to its lowercase and keeps every other character, and NFKD
    changes nothing. *)
Class UnicodeDB := {
  str_lower : pystr -> pystr;
  nfkd : pystr -> pystr;
  str_lower_ascii :
    forall s, forallb is_ascii s = true -> str_lower s = map ascii_lower s;
  nfkd_ascii :
    forall s, forallb is_ascii s = true -> nfkd s = s
}.

(** ** TextCleaner *)

Module TextCleaner.

(** [text.encode("ASCII", "ignore").decode("ASCII")]: code points outside
    the 7-bit range are dropped. *)
Definition encode_ascii_ignore (text : pystr) : pystr := filter is_ascii text.

Definition newline : codepoint := 10.

(** [re.sub(r"(.)\1+", r"\1", text)]: scanning from the left, a character
    other than the newline ([.] does not match it) that is followed by at
    least one copy of itself is matched together with all these copies, and
    the match is replaced by the character alone.  Dropping a character that
    is followed by a copy of itself leaves the last one of each run, which is
    the same string. *)
Fixpoint collapse_repeats (text : pystr) : pystr :=
  match text with
  | [] => []
  | c :: rest =>
      match rest with
      | d :: _ =>
          if (c =? d) && negb (c =? newline) then collapse_repeats rest
          else c :: collapse_repeats rest
      | [] => [c]
      end
  end.

(** The character class of the second substitution, by code point: comma,
    full stop, apostrophe, double quote, tilde, hyphen, underscore, question
    mark, exclamation mark, asterisk. *)
Definition punctuation : list codepoint :=
  [44; 46; 39; 34; 126; 45; 95; 63; 33; 42].

Definition is_punct (c : codepoint) : bool := existsb (N.eqb c) punctuation.

(** The second [re.sub]: every character of the class is deleted. *)
Definition strip_punct (text : pystr) : pystr :=
  filter (fun c => negb (is_punct c)) text.

(** [str.isspace] on ASCII: tab, LF, VT, FF, CR, the four separators
    FS, GS, RS, US, and the space. *)
Definition is_space (c : codepoint) : bool :=
  ((9 <=? c) && (c <=? 13)) || ((28 <=? c) && (c <=? 31)) || (c =? 32).

(** [text.split()]: the maximal runs of characters that are not whitespace.
    [word] holds the characters of the run being read. *)
Fixpoint split_from (word text : pystr) : list pystr :=
  match text with
  | [] => match word with [] => [] | _ => [word] end
  | c :: rest =>
      if is_space c then
        match word with
        | [] => split_from [] rest
        | _ => word :: split_from [] rest
        end
      else split_from (word ++ [c]) rest
  end.

Definition split (text : pystr) : list pystr := split_from [] text.

(** [sep.join(words)] *)
Fixpoint join (sep : pystr) (words : list pystr) : pystr :=
  match words with
  | [] => []
  | [w] => w
  | w :: ws => w ++ sep ++ join sep ws
  end.

Definition space : pystr := [32].

Section WithUnicode.
Context {U : UnicodeDB}.

Definition clean_text (text : pystr) : pystr :=
  let text := str_lower text in
  let text := nfkd text in
  let text := encode_ascii_ignore text in
  let text := collapse_repeats text in
  let text := strip_punct text in
  let text := join space (split text) in
  text.

(** The text after the first three lines of [clean_text]. *)
Definition ascii_fold (text : pystr) : pystr :=
  encode_ascii_ignore (nfkd (str_lower text)).
End WithUnicode.

End TextCleaner.
Import TextCleaner.

(** ** Numbers *)

(** Times ([time.time()], [response_delay]) and [min_similarity] are Python
    floats; they are modelled as exact rationals, so the rounding of the one
    subtraction in [event_message] is not part of the model. *)

(** [x < y] *)
Definition Qltb (x y : Q) : bool := (Qnum x * QDen y <? Qnum y * QDen x)%Z.

(** ** SpamDetector *)

Record SpamDetector := {
  spam_patterns : list pystr;
  min_similarity : Q
}.

Section SpamDetectorMethods.
Context {U : UnicodeDB}.

(** [SpamDetector.__init__]: the patterns are stored lowercased. *)
Definition SpamDetector_init (patterns : list pystr) : SpamDetector :=
  {| spam_patterns := map str_lower patterns;
     min_similarity := (7 # 10)%Q |}.

(** [any(pattern in cleaned_msg for pattern in self.spam_patterns)] *)
Definition is_spam (self : SpamDetector) (message : pystr) : bool :=
  let cleaned_msg := clean_text message in
  existsb (fun pattern => contains cleaned_msg pattern) (spam_patterns self).
End SpamDetectorMethods.

(** ** The bot, the chat and the effects of a handler *)

(** [self.word_responses] is a [dict]: keys are unique and iteration follows
    the order of insertion, so it is kept as an association list. *)
Definition dict := list (pystr * pystr).

Definition dict_contains (k : pystr) (d : dict) : bool :=
  existsb (fun kv => pystr_eqb k (fst kv)) d.

(** [d[k] = v]: an existing key keeps its place, a new one goes last. *)
Fixpoint dict_set (k v : pystr) (d : dict) : dict :=
  match d with
  | [] => [(k, v)]
  | (k', v') :: d' =>
      if pystr_eqb k k' then (k, v) :: d' else (k', v') :: dict_set k v d'
  end.

(** [del d[k]] *)
Fixpoint dict_del (k : pystr) (d : dict) : dict :=
  match d with
  | [] => []
  | (k', v') :: d' => if pystr_eqb k k' then d' else (k', v') :: dict_del k d'
  end.

(** [l.remove(x)]: the first occurrence goes. *)
Fixpoint list_remove (x : pystr) (l : list pystr) : list pystr :=
  match l with
  | [] => []
  | y :: l' => if pystr_eqb x y then l' else y :: list_remove x l'
  end.

Record WordMonitorBot := {
  channels : list pystr;
  word_responses : dict;
  spam_detector : SpamDetector;
  response_delay : Q;
  last_response_time : Q;
  config_path : pystr
}.

(** The dictionary that [save_config] dumps. *)
Record Config := {
  cfg_channels : list pystr;
  cfg_word_responses : dict;
  cfg_spam_patterns : list pystr;
  cfg_response_delay : Q
}.

(** What the handlers read of a chat message (and of the [ctx] made of it). *)
Record Message := {
  echo : bool;
  content : pystr;
  author_name : pystr;
  author_is_mod : bool;
  channel_name : pystr
}.

(** The chat commands, as [handle_commands] invokes them: the name and the
    parsed arguments. *)
Inductive Command :=
| addresponse (trigger response : pystr)
| delresponse (trigger : pystr)
| responses
| addspam (pattern : pystr)
| delspam (pattern : pystr)
| spampatterns.

(** What lies outside [main.py] and is decided while one message is handled:
    the clock, whether the calls into the chat library raise, whether the
    configuration file can be written, and the command that
    [handle_commands] parses out of the message (if any). *)
Record Env := {
  clock : Q;
  send_raises : bool;
  delete_raises : bool;
  write_fails : bool;
  parsed_command : option Command
}.

(** The three places that send text to the channel. *)
Inductive site := TimeoutCommand | TriggerResponse | CommandReply.

(** The calls a handler makes to the outside, in order. *)
Inductive action :=
| Send (from : site) (channel text : pystr)
| Delete (m : Message)
| WriteConfig (path : pystr) (config : Config).

(** A handler either returns or is left by an exception. *)
Inductive result (A : Type) :=
| Return (a : A)
| Raise.
Arguments Return {A} a.
Arguments Raise {A}.

(** Handlers read the environment, update the bot and call the outside. *)
Definition M (A : Type) : Type :=
  Env -> WordMonitorBot -> result A * WordMonitorBot * list action.

Definition ret {A} (a : A) : M A := fun _ bot => (Return a, bot, []).

Definition bind {A B} (m : M A) (k : A -> M B) : M B :=
  fun env bot =>
    match m env bot with
    | (Return a, bot', acts) =>
        match k a env bot' with
        | (r, bot'', acts') => (r, bot'', acts ++ acts')
        end
    | (Raise, bot', acts) => (Raise, bot', acts)
    end.

Notation "x <- m ;; k" := (bind m (fun x => k))
  (at level 61, m at next level, right associativity).
Notation "m ;;; k" := (bind m (fun _ => k))
  (at level 61, right associativity).

Definition get : M WordMonitorBot := fun _ bot => (Return bot, bot, []).
Definition put (bot : WordMonitorBot) : M unit :=
  fun _ _ => (Return tt, bot, []).
Definition ask : M Env := fun env bot => (Return env, bot, []).

(** [try: body] with [except Exception: print(...)]: an exception that leaves
    the body is caught.  What the handlers print is not modelled. *)
Definition try_except (body : M unit) : M unit :=
  fun env bot =>
    match body env bot with
    | (Return _, bot', acts) => (Return tt, bot', acts)
    | (Raise, bot', acts) => (Return tt, bot', acts)
    end.

(** [await channel.send(text)] and [await ctx.send(text)] *)
Definition send (from : site) (channel text : pystr) : M unit :=
  fun env bot =>
    (if send_raises env then Raise else Return tt, bot,
     [Send from channel text]).

(** [await message.delete()] *)
Definition delete (m : Message) : M unit :=
  fun env bot =>
    (if delete_raises env then Raise else Return tt, bot, [Delete m]).

(** ** WordMonitorBot *)

Definition set_word_responses (d : dict) (bot : WordMonitorBot)
    : WordMonitorBot :=
  {| channels := channels bot;
     word_responses := d;
     spam_detector := spam_detector bot;
     response_delay := response_delay bot;
     last_response_time := last_response_time bot;
     config_path := config_path bot |}.

Definition set_spam_patterns (l : list pystr) (bot : WordMonitorBot)
    : WordMonitorBot :=
  {| channels := channels bot;
     word_responses := word_responses bot;
     spam_detector := {| spam_patterns := l;
                         min_similarity := min_similarity (spam_detector bot) |};
     response_delay := response_delay bot;
     last_response_time := last_response_time bot;
     config_path := config_path bot |}.

Definition set_last_response_time (t : Q) (bot : WordMonitorBot)
    : WordMonitorBot :=
  {| channels := channels bot;
     word_responses := word_responses bot;
     spam_detector := spam_detector bot;
     response_delay := response_delay bot;
     last_response_time := t;
     config_path := config_path bot |}.

Definition current_config (bot : WordMonitorBot) : Config :=
  {| cfg_channels := channels bot;
     cfg_word_responses := word_responses bot;
     cfg_spam_patterns := spam_patterns (spam_detector bot);
     cfg_response_delay := response_delay bot |}.

(** [save_config]: the whole configuration is written to [config_path]; an
    exception while writing is caught and turned into [False]. *)
Definition save_config : M bool :=
  fun env bot =>
    (Return (negb (write_fails env)), bot,
     [WriteConfig (config_path bot) (current_config bot)]).

Section Handlers.
Context {U : UnicodeDB}.

(** [ctx.author.is_mod or ctx.author.name.lower() == ctx.channel.name.lower()] *)
Definition privileged (ctx : Message) : bool :=
  author_is_mod ctx ||
  pystr_eqb (str_lower (author_name ctx)) (str_lower (channel_name ctx)).

Definition ctx_send (ctx : Message) (text : pystr) : M unit :=
  send CommandReply (channel_name ctx) text.

Definition add_response (ctx : Message) (trigger response : pystr) : M unit :=
  if negb (privileged ctx) then ret tt
  else
    bot <- get ;;
    put (set_word_responses
           (dict_set (str_lower trigger) response (word_responses bot)) bot) ;;;
    saved <- save_config ;;
    if saved then
      ctx_send ctx (str "Added response for '" ++ trigger ++ str "'")
    else ctx_send ctx (str "Failed to save configuration").

Definition delete_response (ctx : Message) (trigger : pystr) : M unit :=
  if negb (privileged ctx) then ret tt
  else
    bot <- get ;;
    if dict_contains (str_lower trigger) (word_responses bot) then
      put (set_word_responses
             (dict_del (str_lower trigger) (word_responses bot)) bot) ;;;
      saved <- save_config ;;
      if saved then
        ctx_send ctx (str "Deleted response for '" ++ trigger ++ str "'")
      else ctx_send ctx (str "Failed to save configuration")
    else
      ctx_send ctx (str "No response found for '" ++ trigger ++ str "'").

Definition list_responses (ctx : Message) : M unit :=
  if negb (privileged ctx) then ret tt
  else
    bot <- get ;;
    match word_responses bot with
    | [] => ctx_send ctx (str "No responses configured")
    | _ =>
        let response_list :=
          join (str ", ")
               (map (fun kv => fst kv ++ str ": " ++ snd kv)
                    (word_responses bot)) in
        ctx_send ctx (str "Current responses: " ++ response_list)
    end.

Definition add_spam_pattern (ctx : Message) (pattern : pystr) : M unit :=
  if negb (privileged ctx) then ret tt
  else
    bot <- get ;;
    put (set_spam_patterns
           (spam_patterns (spam_detector bot) ++ [str_lower pattern]) bot) ;;;
    saved <- save_config ;;
    if saved then
      ctx_send ctx (str "Added spam pattern '" ++ pattern ++ str "'")
    else ctx_send ctx (str "Failed to save configuration").

Definition delete_spam_pattern (ctx : Message) (pattern : pystr) : M unit :=
  if negb (privileged ctx) then ret tt
  else
    let pattern := str_lower pattern in
    bot <- get ;;
    if mem pattern (spam_patterns (spam_detector bot)) then
      put (set_spam_patterns
             (list_remove pattern (spam_patterns (spam_detector bot))) bot) ;;;
      saved <- save_config ;;
      if saved then
        ctx_send ctx (str "Deleted spam pattern '" ++ pattern ++ str "'")
      else ctx_send ctx (str "Failed to save configuration")
    else
      ctx_send ctx (str "Spam pattern '" ++ pattern ++ str "' not found").

Definition list_spam_patterns (ctx : Message) : M unit :=
  if negb (privileged ctx) then ret tt
  else
    bot <- get ;;
    let patterns := join (str ", ") (spam_patterns (spam_detector bot)) in
    ctx_send ctx (str "Current spam patterns: " ++ patterns).

(** The command that the chat library invokes, with the message as [ctx]. *)
Definition invoke (ctx : Message) (c : Command) : M unit :=
  match c with
  | addresponse trigger response => add_response ctx trigger response
  | delresponse trigger => delete_response ctx trigger
  | responses => list_responses ctx
  | addspam pattern => add_spam_pattern ctx pattern
  | delspam pattern => delete_spam_pattern ctx pattern
  | spampatterns => list_spam_patterns ctx
  end.

(** [self.handle_commands(message)] belongs to the chat library: it parses
    the message and invokes the command it names, if it names one. *)
Definition handle_commands (message : Message) : M unit :=
  env <- ask ;;
  match parsed_command env with
  | Some c => invoke message c
  | None => ret tt
  end.

(** The [for] loop of [event_message] over [self.word_responses.items()]. *)
Fixpoint for_word_responses (items : dict) (words_in_message : list pystr)
    (message : Message) (current_time : Q) : M unit :=
  match items with
  | [] => ret tt
  | (trigger_word, response) :: items' =>
      let cleaned_trigger := clean_text trigger_word in
      if mem cleaned_trigger words_in_message then
        send TriggerResponse (channel_name message) response ;;;
        bot <- get ;;
        put (set_last_response_time current_time bot)
      else for_word_responses items' words_in_message message current_time
  end.

Definition event_message (message : Message) : M unit :=
  if echo message then ret tt
  else if startswith (content message) (str "!") then handle_commands message
  else
    bot <- get ;;
    if is_spam (spam_detector bot) (content message) then
      let is_mod := author_is_mod message in
      let is_broadcaster :=
        pystr_eqb (str_lower (author_name message))
                  (str_lower (channel_name message)) in
      if negb (is_mod || is_broadcaster) then
        try_except
          (send TimeoutCommand (channel_name message)
                (str "/timeout " ++ author_name message ++ str " 3") ;;;
           delete message)
      else ret tt
    else
      env <- ask ;;
      let current_time := clock env in
      if Qltb (current_time - last_response_time bot) (response_delay bot)
      then ret tt
      else
        let cleaned_content := clean_text (content message) in
        let words_in_message := split cleaned_content in
        for_word_responses (word_responses bot) words_in_message
                           message current_time.

(** The bot handles the messages of all its channels one after the other;
    an exception that leaves a handler is reported by the chat library and
    the bot goes on with the state the handler left. *)
Fixpoint run (bot : WordMonitorBot) (events : list (Message * Env))
    : WordMonitorBot * list action :=
  match events with
  | [] => (bot, [])
  | (message, env) :: events' =>
      match event_message message env bot with
      | (_, bot', acts) =>
          match run bot' events' with
          | (bot'', acts') => (bot'', acts ++ acts')
          end
      end
  end.

(** [WordMonitorBot.__init__] *)
Definition WordMonitorBot_init (initial_channels : list pystr)
    (responses0 : dict) (patterns : list pystr) (delay : Q)
    (path : pystr) : WordMonitorBot :=
  {| channels := initial_channels;
     word_responses := responses0;
     spam_detector := SpamDetector_init patterns;
     response_delay := delay;
     last_response_time := 0%Q;
     config_path := path |}.
End Handlers.

(** ** An excerpt of the Unicode character database

    The examples below run [clean_text] on concrete text.  They use this
    excerpt of the database: the ASCII range, the letters U+00C9 and U+00E9
    (E and e with acute accent) and U+2122 (the trade mark sign, which has no
    lowercase and whose compatibility decomposition is the two letters TM).
    U+0301 is the combining acute accent.  On these code points the excerpt
    is the database; code points outside it are left as they are, and no
    example uses one. *)
Definition lower_cp (c : codepoint) : codepoint :=
  if is_ascii c then ascii_lower c
  else if c =? 201 then 233
  else c.

Definition nfkd_cp (c : codepoint) : pystr :=
  if c =? 201 then [69; 769]
  else if c =? 233 then [101; 769]
  else if c =? 8482 then [84; 77]
  else [c].

(** ** The predicate NormalizedText of the specification

    Stated from the words of the specification, for comparison with what
    [clean_text] returns. *)

(** Every two neighbours of [s] satisfy [R]. *)
Fixpoint adjacent (R : codepoint -> codepoint -> bool) (s : pystr) : bool :=
  match s with
  | a :: (b :: _) as t => R a b && adjacent R t
  | _ => true
  end.

Definition first_is_space (s : pystr) : bool :=
  match s with
  | [] => false
  | c :: _ => is_space c
  end.

Fixpoint last_is_space (s : pystr) : bool :=
  match s with
  | [] => false
  | [c] => is_space c
  | _ :: t => last_is_space t
  end.

Definition ascii_only (s : pystr) : bool := forallb is_ascii s.
Definition lowercase_only (s : pystr) : bool :=
  forallb (fun c => negb (is_upper c)) s.
Definition no_repeats (s : pystr) : bool :=
  adjacent (fun a b => negb (a =? b)) s.
Definition no_punct (s : pystr) : bool :=
  forallb (fun c => negb (is_punct c)) s.
(** Whitespace is the space character only, and never two in a row. *)
Definition single_spaced (s : pystr) : bool :=
  forallb (fun c => implb (is_space c) (c =? 32)) s &&
  adjacent (fun a b => negb (is_space a && is_space b)) s.
Definition trimmed (s : pystr) : bool :=
  negb (first_is_space s) && negb (last_is_space s).

Definition NormalizedText (s : pystr) : bool :=
  lowercase_only s && ascii_only s && no_repeats s && no_punct s &&
  single_spaced s && trimmed s.

(** The texts that the trigger stage of [event_message] sent. *)
Fixpoint trigger_responses (acts : list action) : list pystr :=
  match acts with
  | [] => []
  | Send TriggerResponse _ text :: acts' => text :: trigger_responses acts'
  | _ :: acts' => trigger_responses acts'
  end.

(** A word of [split]: not empty, and free of whitespace. *)
Definition is_word (w : pystr) : Prop :=
  w <> [] /\ forall c, In c w -> is_space c = false.

(** The three parts of what a handler leaves behind. *)
Definition result_of {A} (o : result A * WordMonitorBot * list action)
    : result A :=
  fst (fst o).
Definition bot_after {A} (o : result A * WordMonitorBot * list action)
    : WordMonitorBot :=
  snd (fst o).
Definition actions_of {A} (o : result A * WordMonitorBot * list action)
    : list action :=
  snd o.

(** What the trigger stage leaves when [response] is sent. *)
Definition responded (response : pystr) (message : Message) (env : Env)
    (bot : WordMonitorBot) : result unit * WordMonitorBot * list action :=
  (if send_raises env then Raise else Return tt,
   if send_raises env then bot else set_last_response_time (clock env) bot,
   [Send TriggerResponse (channel_name message) response]).

(** ** The excerpt is a Unicode database *)

Lemma map_ascii_lower_excerpt s :
  forallb is_ascii s = true -> map lower_cp s = map ascii_lower s.
Proof.
  induction s as [|c s IH]; simpl; [reflexivity|].
  intros H. apply andb_prop in H as [Hc Hs].
  unfold lower_cp at 1. rewrite Hc, IH by exact Hs. reflexivity.
Qed.

Lemma flat_map_nfkd_excerpt s :
  forallb is_ascii s = true -> flat_map nfkd_cp s = s.
Proof.
  induction s as [|c s IH]; simpl; [reflexivity|].
  intros H. apply andb_prop in H as [Hc Hs].
  rewrite IH by exact Hs.
  unfold is_ascii in Hc. apply N.ltb_lt in Hc.
  unfold nfkd_cp.
  destruct (N.eqb_spec c 201); [lia|].
  destruct (N.eqb_spec c 233); [lia|].
  destruct (N.eqb_spec c 8482); [lia|].
  reflexivity.
Qed.

#[global] Instance UCD_excerpt : UnicodeDB := {|
  str_lower := map lower_cp;
  nfkd := flat_map nfkd_cp;
  str_lower_ascii := map_ascii_lower_excerpt;
  nfkd_ascii := flat_map_nfkd_excerpt
|}.

(** ** A bot and a chat to run it on *)

Definition sample_bot : WordMonitorBot :=
  WordMonitorBot_init [str "somechannel"]
    [(str "hello", str "Hi there!"); (str "bye", str "See you")]
    [str "casino"] 3%Q (str "config.yml").

Definition chat_message (author : pystr) (is_mod : bool) (text : pystr)
    : Message :=
  {| echo := false;
     content := text;
     author_name := author;
     author_is_mod := is_mod;
     channel_name := str "somechannel" |}.

(** An environment in which every call to the outside succeeds. *)
Definition at_time (t : Q) (c : option Command) : Env :=
  {| clock := t;
     send_raises := false;
     delete_raises := false;
     write_fails := false;
     parsed_command := c |}.

(** An environment in which sending to the channel raises. *)
Definition send_failing_at (t : Q) : Env :=
  {| clock := t;
     send_raises := true;
     delete_raises := false;
     write_fails := false;
     parsed_command := None |}.

Definition hello : Message := chat_message (str "viewer") false (str "Hello!!").
Definition casino_hello (author : pystr) (is_mod : bool) : Message :=
  chat_message author is_mod (str "hello, best CASINO bonus").

(** * Properties *)

(** ** Strings and lists *)

Lemma pystr_eqb_true s t : pystr_eqb s t = true <-> s = t.
Proof.
  unfold pystr_eqb. destruct (list_eq_dec N.eq_dec s t); split; congruence.
Qed.

Lemma pystr_eqb_refl s : pystr_eqb s s = true.
Proof. apply pystr_eqb_true. reflexivity. Qed.

Lemma mem_In x l : mem x l = true <-> In x l.
Proof.
  unfold mem. rewrite existsb_exists. split.
  - intros [y [Hy He]]. apply pystr_eqb_true in He. subst. exact Hy.
  - intros H. exists x. split; [exact H | apply pystr_eqb_refl].
Qed.

Lemma mem_false x l : mem x l = false <-> ~ In x l.
Proof.
  rewrite <- mem_In. destruct (mem x l); split; congruence.
Qed.

Lemma startswith_In s p :
  startswith s p = true -> forall c, In c p -> In c s.
Proof.
  revert s. induction p as [|a p IH]; intros s H c Hc; [destruct Hc|].
  destruct s as [|b s]; simpl in H; [discriminate|].
  apply andb_prop in H as [Hab Hp]. apply N.eqb_eq in Hab. subst b.
  destruct Hc as [->|Hc]; [left; reflexivity | right; eauto].
Qed.

(** A substring brings all its characters along. *)
Lemma contains_In s p :
  contains s p = true -> forall c, In c p -> In c s.
Proof.
  induction s as [|b s IH]; intros H c Hc.
  - simpl in H. rewrite orb_false_r in H. eapply startswith_In; eauto.
  - cbn [contains] in H. apply orb_prop in H as [H|H].
    + eapply startswith_In; eauto.
    + right. eauto.
Qed.

Lemma startswith_spec s p :
  startswith s p = true <-> exists r, s = p ++ r.
Proof.
  revert s. induction p as [|a p IH]; intros s.
  - split; [intros _; exists s; reflexivity | destruct s; reflexivity].
  - destruct s as [|b s]; simpl.
    + split; [discriminate | intros [r H]; discriminate H].
    + rewrite andb_true_iff, N.eqb_eq, IH. split.
      * intros [-> [r ->]]. exists r. reflexivity.
      * intros [r H]. injection H as -> ->. split; [reflexivity|].
        exists r. reflexivity.
Qed.

(** [contains s p] is Python's [p in s]: [p] is a contiguous part of [s]. *)
Lemma contains_spec s p :
  contains s p = true <-> exists l r, s = l ++ p ++ r.
Proof.
  induction s as [|b s IH].
  - cbn [contains]. rewrite orb_false_r, startswith_spec. split.
    + intros [r H]. exists [], r. exact H.
    + intros [l [r H]]. destruct l; [exists r; exact H | discriminate H].
  - cbn [contains]. rewrite orb_true_iff, startswith_spec, IH. split.
    + intros [[r H]|[l [r H]]].
      * exists [], r. exact H.
      * exists (b :: l), r. rewrite H. reflexivity.
    + intros [l [r H]]. destruct l as [|x l].
      * left. exists r. exact H.
      * right. injection H as -> ->. exists l, r. reflexivity.
Qed.

Lemma forallb_In (p : codepoint -> bool) s :
  forallb p s = true <-> forall c, In c s -> p c = true.
Proof. apply forallb_forall. Qed.

Lemma filter_all (p : codepoint -> bool) s :
  forallb p s = true -> filter p s = s.
Proof.
  induction s as [|c s IH]; simpl; [reflexivity|].
  intros H. apply andb_prop in H as [Hc Hs]. rewrite Hc, IH by exact Hs.
  reflexivity.
Qed.

Lemma map_ascii_lower_id s :
  lowercase_only s = true -> map ascii_lower s = s.
Proof.
  unfold lowercase_only.
  induction s as [|c s IH]; simpl; [reflexivity|].
  intros H. apply andb_prop in H as [Hc Hs]. rewrite IH by exact Hs.
  unfold ascii_lower. apply negb_true_iff in Hc. rewrite Hc. reflexivity.
Qed.

Lemma is_upper_ascii_lower c : is_upper (ascii_lower c) = false.
Proof.
  unfold ascii_lower. destruct (is_upper c) eqn:E; [|exact E].
  unfold is_upper in *. apply andb_prop in E as [E1 E2].
  apply N.leb_le in E1, E2. apply andb_false_iff. right.
  apply N.leb_gt. lia.
Qed.

(** ** Neighbours *)

Lemma adjacent_cons R a s :
  adjacent R (a :: s) = true -> adjacent R s = true.
Proof.
  destruct s as [|b s]; [reflexivity|].
  cbn [adjacent]. intros H. apply andb_prop in H as [_ H]. exact H.
Qed.

Lemma adjacent_app_l R s t :
  adjacent R (s ++ t) = true -> adjacent R s = true.
Proof.
  induction s as [|a s IH]; [reflexivity|].
  destruct s as [|b s]; [reflexivity|].
  cbn [app adjacent]. intros H. apply andb_prop in H as [H1 H2].
  rewrite H1. apply IH. exact H2.
Qed.

Lemma adjacent_app_r R s t :
  adjacent R (s ++ t) = true -> adjacent R t = true.
Proof.
  induction s as [|a s IH]; [trivial|].
  intros H. apply IH. eapply adjacent_cons. exact H.
Qed.

(** Two strings with good neighbours meet well when every character of the
    first is a good left neighbour of the head of the second. *)
Lemma adjacent_glue R s c t :
  adjacent R s = true -> adjacent R (c :: t) = true ->
  (forall a, In a s -> R a c = true) ->
  adjacent R (s ++ c :: t) = true.
Proof.
  intros Hs Ht Hc. induction s as [|a s IH]; [exact Ht|].
  destruct s as [|b s].
  - change (R a c && adjacent R (c :: t) = true).
    rewrite Hc by (left; reflexivity). exact Ht.
  - cbn [app adjacent] in Hs |- *. apply andb_prop in Hs as [H1 H2].
    rewrite H1. apply IH; [exact H2|].
    intros x Hx. apply Hc. right. exact Hx.
Qed.

(** A relation may be traded for another that holds of the same pairs. *)
Lemma adjacent_weaken (R R' : codepoint -> codepoint -> bool) s :
  (forall a b, In a s -> R a b = true -> R' a b = true) ->
  adjacent R s = true -> adjacent R' s = true.
Proof.
  induction s as [|a s IH]; [reflexivity|].
  destruct s as [|b s]; [reflexivity|].
  intros HR H. cbn [adjacent] in H |- *. apply andb_prop in H as [H1 H2].
  rewrite (HR a b) by (auto using in_eq). apply IH; [|exact H2].
  intros x y Hx. apply HR. right. exact Hx.
Qed.

Lemma adjacent_all (R : codepoint -> codepoint -> bool) s :
  (forall a b, In a s -> R a b = true) -> adjacent R s = true.
Proof.
  induction s as [|a s IH]; [reflexivity|].
  destruct s as [|b s]; [reflexivity|].
  intros H. cbn [adjacent]. rewrite H by (left; reflexivity).
  apply IH. intros x y Hx. apply H. right. exact Hx.
Qed.

(** ** The first substitution: repeated characters *)

Lemma collapse_repeats_cons c d r :
  collapse_repeats (c :: d :: r) =
  if (c =? d) && negb (c =? newline) then collapse_repeats (d :: r)
  else c :: collapse_repeats (d :: r).
Proof. reflexivity. Qed.

Lemma collapse_repeats_In c s : In c (collapse_repeats s) -> In c s.
Proof.
  induction s as [|a s IH]; [trivial|].
  destruct s as [|d r]; [trivial|].
  rewrite collapse_repeats_cons.
  destruct ((a =? d) && negb (a =? newline)).
  - intros H. right. apply IH. exact H.
  - intros [->|H]; [left; reflexivity | right; apply IH; exact H].
Qed.

Lemma collapse_repeats_head c r :
  exists t, collapse_repeats (c :: r) = c :: t.
Proof.
  revert c. induction r as [|d r IH]; intros c.
  - exists []. reflexivity.
  - rewrite collapse_repeats_cons.
    destruct ((c =? d) && negb (c =? newline)) eqn:E.
    + apply andb_prop in E as [E _]. apply N.eqb_eq in E. subst d. apply IH.
    + eexists. reflexivity.
Qed.

(** After the substitution only newlines stand next to a copy of themselves. *)
Lemma collapse_repeats_adjacent s :
  adjacent (fun a b => negb (a =? b) || (a =? newline)) (collapse_repeats s)
  = true.
Proof.
  induction s as [|c s IH]; [reflexivity|].
  destruct s as [|d r]; [reflexivity|].
  rewrite collapse_repeats_cons.
  destruct ((c =? d) && negb (c =? newline)) eqn:E; [exact IH|].
  destruct (collapse_repeats_head d r) as [t Ht].
  rewrite Ht in IH |- *.
  change ((negb (c =? d) || (c =? newline)) &&
          adjacent (fun a b => negb (a =? b) || (a =? newline)) (d :: t)
          = true).
  rewrite IH, andb_true_r.
  destruct (c =? d), (c =? newline); simpl in *; congruence.
Qed.

Lemma collapse_repeats_id s :
  no_repeats s = true -> collapse_repeats s = s.
Proof.
  unfold no_repeats.
  induction s as [|c s IH]; [reflexivity|].
  destruct s as [|d r]; [reflexivity|].
  intros H. cbn [adjacent] in H. apply andb_prop in H as [H1 H2].
  rewrite collapse_repeats_cons. apply negb_true_iff in H1. rewrite H1.
  simpl andb. cbv iota. f_equal. apply IH. exact H2.
Qed.

(** ** Splitting on whitespace and joining with spaces *)

Lemma split_from_In word s w :
  In w (split_from word s) -> forall c, In c w -> In c word \/ In c s.
Proof.
  revert word. induction s as [|a s IH]; intros word Hw c Hc.
  - destruct word; simpl in Hw; [destruct Hw|].
    destruct Hw as [<-|[]]. left. exact Hc.
  - cbn [split_from] in Hw. destruct (is_space a).
    + destruct word as [|x word].
      * destruct (IH _ Hw c Hc) as [[]|H]. right. right. exact H.
      * destruct Hw as [<-|Hw]; [left; exact Hc|].
        destruct (IH _ Hw c Hc) as [[]|H]. right. right. exact H.
    + destruct (IH _ Hw c Hc) as [H|H].
      * apply in_app_or in H as [H|[<-|[]]]; [left; exact H|].
        right. left. reflexivity.
      * right. right. exact H.
Qed.

Lemma split_from_words word s :
  (forall c, In c word -> is_space c = false) ->
  Forall is_word (split_from word s).
Proof.
  revert word. induction s as [|a s IH]; intros word Hword.
  - destruct word; simpl; constructor; [|constructor].
    split; [discriminate | exact Hword].
  - cbn [split_from]. destruct (is_space a) eqn:E.
    + destruct word as [|x word].
      * apply IH. intros c [].
      * constructor; [split; [discriminate | exact Hword]|].
        apply IH. intros c [].
    + apply IH. intros c Hc.
      apply in_app_or in Hc as [Hc|[<-|[]]]; [apply Hword; exact Hc | exact E].
Qed.

Lemma split_from_nonempty word s : word <> [] -> split_from word s <> [].
Proof.
  revert word. induction s as [|a s IH]; intros word Hword.
  - destruct word; [congruence | discriminate].
  - cbn [split_from]. destruct (is_space a).
    + destruct word; [congruence | discriminate].
    + apply IH. destruct word; discriminate.
Qed.

(** Words keep the neighbours they had in the text. *)
Lemma split_from_no_repeats word s :
  (forall c, In c word -> is_space c = false) ->
  adjacent (fun a b => negb (a =? b) || is_space a) (word ++ s) = true ->
  Forall (fun w => no_repeats w = true) (split_from word s).
Proof.
  assert (Hw : forall w, (forall c, In c w -> is_space c = false) ->
            adjacent (fun a b => negb (a =? b) || is_space a) w = true ->
            no_repeats w = true).
  { intros w Hc. apply adjacent_weaken. intros a b Ha H.
    rewrite (Hc a Ha), orb_false_r in H. exact H. }
  revert word. induction s as [|a s IH]; intros word Hword Hadj.
  - rewrite app_nil_r in Hadj.
    destruct word; simpl; constructor; [|constructor]. apply Hw; assumption.
  - cbn [split_from]. destruct (is_space a) eqn:E.
    + assert (Hs : Forall (fun w => no_repeats w = true) (split_from [] s)).
      { apply IH; [intros c []|]. simpl.
        apply adjacent_app_r in Hadj. eapply adjacent_cons. exact Hadj. }
      destruct word as [|x word]; [exact Hs|].
      constructor; [|exact Hs].
      apply Hw; [exact Hword|]. eapply adjacent_app_l. exact Hadj.
    + apply IH.
      * intros c Hc.
        apply in_app_or in Hc as [Hc|[<-|[]]]; [apply Hword; exact Hc | exact E].
      * rewrite <- app_assoc. exact Hadj.
Qed.

Lemma join_cons sep w ws :
  ws <> [] -> join sep (w :: ws) = w ++ sep ++ join sep ws.
Proof. destruct ws; [congruence | reflexivity]. Qed.

Lemma join_In sep ws c :
  In c (join sep ws) -> In c sep \/ exists w, In w ws /\ In c w.
Proof.
  induction ws as [|w ws IH]; [intros []|].
  destruct ws as [|w' ws].
  - intros H. right. exists w. split; [left; reflexivity | exact H].
  - rewrite join_cons by discriminate. intros H.
    apply in_app_or in H as [H|H].
    + right. exists w. split; [left; reflexivity | exact H].
    + apply in_app_or in H as [H|H]; [left; exact H|].
      destruct (IH H) as [H'|[x [Hx Hc]]]; [left; exact H'|].
      right. exists x. split; [right; exact Hx | exact Hc].
Qed.

Lemma last_is_space_app s t :
  t <> [] -> last_is_space (s ++ t) = last_is_space t.
Proof.
  intros Ht. induction s as [|a s IH]; [reflexivity|].
  simpl app. destruct (s ++ t) eqn:E; [|exact IH].
  apply app_eq_nil in E as [_ E]. congruence.
Qed.

Lemma last_is_space_word w :
  (forall c, In c w -> is_space c = false) -> last_is_space w = false.
Proof.
  induction w as [|a w IH]; [reflexivity|].
  intros H. destruct w as [|b w]; [apply H; left; reflexivity|].
  apply IH. intros c Hc. apply H. right. exact Hc.
Qed.

(** Words joined by single spaces start with the first word. *)
Lemma join_words_head ws :
  ws <> [] -> Forall is_word ws ->
  exists b t, join space ws = b :: t /\ is_space b = false.
Proof.
  intros Hne Hws. destruct ws as [|w ws]; [congruence|].
  inversion Hws as [|? ? [Hw Hc] _]; subst.
  destruct w as [|b w]; [congruence|].
  exists b. destruct ws as [|w' ws].
  - exists w. split; [reflexivity | apply Hc; left; reflexivity].
  - eexists. rewrite join_cons by discriminate.
    split; [reflexivity | apply Hc; left; reflexivity].
Qed.

Lemma join_words_first ws :
  Forall is_word ws -> first_is_space (join space ws) = false.
Proof.
  intros Hws. destruct ws as [|w ws]; [reflexivity|].
  destruct (join_words_head (ws := w :: ws)) as [b [t [E Hb]]];
    [discriminate | exact Hws |].
  rewrite E. exact Hb.
Qed.

Lemma join_words_last ws :
  Forall is_word ws -> last_is_space (join space ws) = false.
Proof.
  induction ws as [|w ws IH]; [reflexivity|].
  intros Hws. inversion Hws as [|? ? [Hw Hc] Hws']; subst.
  destruct ws as [|w' ws]; [apply last_is_space_word; exact Hc|].
  rewrite join_cons by discriminate.
  destruct (join_words_head (ws := w' :: ws)) as [b [t [E _]]];
    [discriminate | exact Hws' |].
  rewrite !last_is_space_app; [apply IH; exact Hws' | | ].
  - rewrite E. discriminate.
  - rewrite E. destruct space; discriminate.
Qed.

(** Joining keeps good neighbours when the space is a good neighbour of
    every character that is not whitespace. *)
Lemma join_words_adjacent R ws :
  (forall a, is_space a = false -> R a 32 = true /\ R 32 a = true) ->
  Forall is_word ws -> Forall (fun w => adjacent R w = true) ws ->
  adjacent R (join space ws) = true.
Proof.
  intros HR. induction ws as [|w ws IH]; [reflexivity|].
  intros Hws Hadj.
  inversion Hws as [|? ? [Hw Hc] Hws']; subst.
  inversion Hadj as [|? ? Hwadj Hadj']; subst.
  destruct ws as [|w' ws]; [exact Hwadj|].
  rewrite join_cons by discriminate.
  destruct (join_words_head (ws := w' :: ws)) as [b [t [E Hb]]];
    [discriminate | exact Hws' |].
  change (space ++ join space (w' :: ws)) with (32 :: join space (w' :: ws)).
  apply adjacent_glue; [exact Hwadj | |].
  - specialize (IH Hws' Hadj'). rewrite E in IH |- *.
    change (R 32 b && adjacent R (b :: t) = true).
    rewrite IH, andb_true_r. apply HR. exact Hb.
  - intros a Ha. apply HR. apply Hc. exact Ha.
Qed.

(** On text whose only whitespace is single spaces between words, splitting
    and joining is the identity. *)
Lemma join_split_from word s :
  (forall c, In c word -> is_space c = false) ->
  single_spaced s = true -> last_is_space s = false ->
  (word = [] -> first_is_space s = false) ->
  join space (split_from word s) = word ++ s.
Proof.
  unfold single_spaced.
  revert word. induction s as [|a s IH]; intros word Hword Hss Hlast Hfirst.
  - rewrite app_nil_r. destruct word; reflexivity.
  - apply andb_prop in Hss as [Hsp Hadj].
    cbn [forallb] in Hsp. apply andb_prop in Hsp as [Ha Hsp].
    assert (Hadj' := adjacent_cons _ _ _ Hadj).
    cbn [split_from]. destruct (is_space a) eqn:E.
    + simpl in Ha. apply N.eqb_eq in Ha. subst a.
      destruct word as [|x word];
        [specialize (Hfirst eq_refl); simpl in Hfirst; congruence|].
      destruct s as [|d s]; [simpl in Hlast; congruence|].
      cbn [adjacent] in Hadj. apply andb_prop in Hadj as [Hd _].
      rewrite E in Hd. simpl in Hd. apply negb_true_iff in Hd.
      assert (Hrest : join space (split_from [] (d :: s)) = d :: s).
      { apply (IH []); [intros c [] | | exact Hlast | intros _; exact Hd].
        rewrite Hsp, Hadj'. reflexivity. }
      rewrite join_cons.
      * rewrite Hrest. reflexivity.
      * cbn [split_from]. rewrite Hd. apply split_from_nonempty. discriminate.
    + rewrite IH.
      * rewrite <- app_assoc. reflexivity.
      * intros c Hc.
        apply in_app_or in Hc as [Hc|[<-|[]]]; [apply Hword; exact Hc | exact E].
      * rewrite Hsp, Hadj'. reflexivity.
      * destruct s; [reflexivity | exact Hlast].
      * intros Habs. destruct word; discriminate.
Qed.

(** ** clean_text *)

Section CleanText.
Context {U : UnicodeDB}.

Lemma clean_text_eq x :
  clean_text x =
  join space (split (strip_punct (collapse_repeats (ascii_fold x)))).
Proof. reflexivity. Qed.

Lemma ascii_fold_ascii x : ascii_only (ascii_fold x) = true.
Proof.
  apply forallb_In. intros c Hc. apply filter_In in Hc as [_ Hc]. exact Hc.
Qed.

(** On ASCII input the first three lines only lowercase the letters. *)
Lemma ascii_fold_of_ascii x :
  ascii_only x = true -> ascii_fold x = map ascii_lower x.
Proof.
  intros Hx. unfold ascii_fold, encode_ascii_ignore.
  rewrite str_lower_ascii by exact Hx.
  assert (H : forallb is_ascii (map ascii_lower x) = true).
  { apply forallb_In. intros c Hc. apply in_map_iff in Hc as [a [<- Ha]].
    pose proof (proj1 (forallb_In _ _) Hx a Ha) as Hlt.
    unfold is_ascii, ascii_lower, is_upper in *. apply N.ltb_lt in Hlt.
    apply N.ltb_lt.
    destruct ((65 <=? a) && (a <=? 90)) eqn:E; [|exact Hlt].
    apply andb_prop in E as [_ E]. apply N.leb_le in E. lia. }
  rewrite nfkd_ascii by exact H. apply filter_all. exact H.
Qed.

(** Where the characters of the result come from: each is a space put in
    by [join], or a character that the first three lines left and that is
    neither in the punctuation class nor whitespace. *)
Lemma clean_text_In x c :
  In c (clean_text x) ->
  c = 32 \/
  (In c (ascii_fold x) /\ is_punct c = false /\ is_space c = false).
Proof.
  rewrite clean_text_eq. intros H.
  apply join_In in H as [[<-|[]]|[w [Hw Hc]]]; [left; reflexivity|].
  right. unfold split in Hw.
  pose proof (split_from_words [] (strip_punct (collapse_repeats (ascii_fold x))))
    as Hwords.
  rewrite Forall_forall in Hwords.
  destruct (Hwords (fun _ F => match F with end) w Hw) as [_ Hsp].
  destruct (split_from_In _ _ _ Hw c Hc) as [[]|Hin].
  apply filter_In in Hin as [Hin Hp]. apply negb_true_iff in Hp.
  apply collapse_repeats_In in Hin. auto.
Qed.

(** The result is a list of words joined by single spaces. *)
Lemma clean_text_words x :
  exists ws, clean_text x = join space ws /\ Forall is_word ws.
Proof.
  exists (split (strip_punct (collapse_repeats (ascii_fold x)))).
  split; [apply clean_text_eq|]. apply split_from_words. intros c [].
Qed.

Lemma clean_text_ascii_only x : ascii_only (clean_text x) = true.
Proof.
  apply forallb_In. intros c Hc.
  apply clean_text_In in Hc as [->|[Hc _]]; [reflexivity|].
  exact (proj1 (forallb_In _ _) (ascii_fold_ascii x) c Hc).
Qed.

Lemma clean_text_no_punct x : no_punct (clean_text x) = true.
Proof.
  apply forallb_In. intros c Hc.
  apply clean_text_In in Hc as [->|[_ [Hc _]]]; [reflexivity|].
  rewrite Hc. reflexivity.
Qed.

Lemma clean_text_single_spaced x : single_spaced (clean_text x) = true.
Proof.
  unfold single_spaced. apply andb_true_intro. split.
  - apply forallb_In. intros c Hc.
    apply clean_text_In in Hc as [->|[_ [_ Hc]]]; [reflexivity|].
    rewrite Hc. reflexivity.
  - destruct (clean_text_words x) as [ws [-> Hws]].
    apply join_words_adjacent; [| exact Hws |].
    + intros a Ha. split; cbv beta; rewrite Ha;
        [reflexivity | apply negb_true_iff, andb_false_r].
    + eapply Forall_impl; [|exact Hws]. intros w [_ Hc].
      apply adjacent_all. intros a b Ha. rewrite (Hc a Ha). reflexivity.
Qed.

Lemma clean_text_trimmed x : trimmed (clean_text x) = true.
Proof.
  destruct (clean_text_words x) as [ws [-> Hws]]. unfold trimmed.
  rewrite join_words_first, join_words_last by exact Hws. reflexivity.
Qed.

Lemma clean_text_lowercase_only x :
  lowercase_only (ascii_fold x) = true -> lowercase_only (clean_text x) = true.
Proof.
  intros H. apply forallb_In. intros c Hc.
  apply clean_text_In in Hc as [->|[Hc _]]; [reflexivity|].
  exact (proj1 (forallb_In _ _) H c Hc).
Qed.

Lemma clean_text_lowercase_of_ascii x :
  ascii_only x = true -> lowercase_only (clean_text x) = true.
Proof.
  intros Hx. apply clean_text_lowercase_only.
  rewrite ascii_fold_of_ascii by exact Hx.
  apply forallb_In. intros c Hc. apply in_map_iff in Hc as [a [<- _]].
  rewrite is_upper_ascii_lower. reflexivity.
Qed.

Lemma clean_text_no_repeats x :
  no_punct (ascii_fold x) = true -> no_repeats (clean_text x) = true.
Proof.
  intros Hp. rewrite clean_text_eq.
  assert (Hstrip : strip_punct (collapse_repeats (ascii_fold x))
                   = collapse_repeats (ascii_fold x)).
  { apply filter_all. apply forallb_In. intros c Hc.
    apply collapse_repeats_In in Hc.
    exact (proj1 (forallb_In _ _) Hp c Hc). }
  rewrite Hstrip. unfold no_repeats.
  apply join_words_adjacent.
  - intros a Ha.
    destruct (N.eqb_spec a 32) as [->|Hne]; [discriminate Ha|].
    destruct (N.eqb_spec 32 a) as [<-|_]; [congruence | auto].
  - apply split_from_words. intros c [].
  - apply split_from_no_repeats; [intros c []|]. simpl.
    eapply adjacent_weaken; [|apply collapse_repeats_adjacent].
    intros a b _ H. apply orb_prop in H as [H|H]; [rewrite H; reflexivity|].
    apply N.eqb_eq in H. subst a. apply orb_true_r.
Qed.

(** Text that is already normalized is left alone. *)
Lemma clean_text_fixed y : NormalizedText y = true -> clean_text y = y.
Proof.
  unfold NormalizedText. intros H.
  repeat (apply andb_prop in H as [H ?]).
  unfold clean_text. cbv zeta.
  rewrite str_lower_ascii by assumption.
  rewrite map_ascii_lower_id by assumption.
  rewrite nfkd_ascii by assumption.
  unfold encode_ascii_ignore. rewrite filter_all by assumption.
  rewrite collapse_repeats_id by assumption.
  unfold strip_punct. rewrite filter_all by assumption.
  match goal with Ht : trimmed _ = true |- _ =>
    unfold trimmed in Ht; apply andb_prop in Ht as [Hf Hl] end.
  apply negb_true_iff in Hf, Hl.
  apply (join_split_from (word := []));
    [intros c [] | assumption | exact Hl |].
  intros _. exact Hf.
Qed.

End CleanText.

Section TextClaims.
Context {U : UnicodeDB}.

(** Whatever the input, a second pass yields normalized text, and from the
    second pass on nothing changes. *)
Lemma clean_text_twice_normalized x :
  NormalizedText (clean_text (clean_text x)) = true.
Proof.
  assert (Hfold : ascii_fold (clean_text x) = map ascii_lower (clean_text x))
    by (apply ascii_fold_of_ascii, clean_text_ascii_only).
  unfold NormalizedText.
  rewrite clean_text_lowercase_of_ascii by apply clean_text_ascii_only.
  rewrite clean_text_no_repeats.
  - rewrite clean_text_ascii_only, clean_text_no_punct.
    rewrite clean_text_single_spaced, clean_text_trimmed. reflexivity.
  - rewrite Hfold. apply forallb_In. intros c Hc.
    apply in_map_iff in Hc as [a [<- Ha]].
    pose proof (proj1 (forallb_In _ _) (clean_text_no_punct x) a Ha) as Hp.
    cbv beta in Hp. unfold ascii_lower.
    destruct (is_upper a) eqn:E; [|exact Hp].
    unfold is_upper in E. apply andb_prop in E as [E1 E2].
    apply N.leb_le in E1, E2. unfold is_punct, punctuation. simpl.
    repeat match goal with
           | |- context [(?n =? ?m)] =>
               destruct (N.eqb_spec n m); [lia|]
           end.
    reflexivity.
Qed.

Lemma clean_text_thrice x :
  clean_text (clean_text (clean_text x)) = clean_text (clean_text x).
Proof. apply clean_text_fixed, clean_text_twice_normalized. Qed.

(** Exactly when a second pass changes nothing: the first pass left no
    uppercase letter and no two equal neighbours. *)
Lemma clean_text_stable_iff x :
  clean_text (clean_text x) = clean_text x <->
  lowercase_only (clean_text x) = true /\ no_repeats (clean_text x) = true.
Proof.
  split.
  - intros E. pose proof (clean_text_twice_normalized x) as H.
    rewrite E in H. unfold NormalizedText in H.
    repeat (apply andb_prop in H as [H ?]). split; assumption.
  - intros [Hlow Hrep]. apply clean_text_fixed. unfold NormalizedText.
    rewrite Hlow, Hrep, clean_text_ascii_only, clean_text_no_punct.
    rewrite clean_text_single_spaced, clean_text_trimmed. reflexivity.
Qed.

End TextClaims.

(** C1 as stated fails: the hyphen goes after the repeats were collapsed, so
    [a-a] becomes [aa], which a second pass turns into [a]. *)
Lemma clean_text_not_idempotent :
  clean_text (str "a-a") = str "aa" /\
  clean_text (clean_text (str "a-a")) = str "a" /\
  clean_text (clean_text (str "a-a")) <> clean_text (str "a-a").
Proof. repeat split. vm_compute. discriminate. Qed.

(** What the ASCII example does not depend on: every Unicode database
    gives the same. *)
Lemma clean_text_a_hyphen_a {U : UnicodeDB} :
  clean_text (str "a-a") = str "aa" /\ clean_text (str "aa") = str "a".
Proof.
  rewrite !clean_text_eq, !ascii_fold_of_ascii by reflexivity.
  split; reflexivity.
Qed.

(** C3 as stated fails twice: [a-a] gives [aa], a repeated character, and
    the trade mark sign gives [TM], two uppercase letters. *)
Lemma clean_text_not_normalized :
  NormalizedText (clean_text (str "a-a")) = false /\
  no_repeats (clean_text (str "a-a")) = false /\
  clean_text [8482] = str "TM" /\
  lowercase_only (clean_text [8482]) = false.
Proof. repeat split. Qed.

(** ** is_spam *)

Section SpamClaims.
Context {U : UnicodeDB}.

Lemma no_punct_contains s p :
  no_punct s = true -> existsb is_punct p = true -> contains s p = false.
Proof.
  intros Hs Hp. destruct (contains s p) eqn:E; [|reflexivity].
  apply existsb_exists in Hp as [c [Hc Hpc]].
  pose proof (proj1 (forallb_In _ _) Hs c (contains_In _ _ E c Hc)) as H.
  cbv beta in H. rewrite Hpc in H. discriminate.
Qed.

(** [is_spam] says whether some stored pattern is a contiguous part of the
    cleaned message. *)
Lemma is_spam_spec self message :
  is_spam self message = true <->
  exists pattern, In pattern (spam_patterns self) /\
                  exists l r, clean_text message = l ++ pattern ++ r.
Proof.
  unfold is_spam. cbv zeta. rewrite existsb_exists.
  split; intros [p [Hp H]]; exists p; (split; [exact Hp|]);
    apply contains_spec; exact H.
Qed.

Lemma is_punct_ascii_lower c : is_punct c = true -> ascii_lower c = c.
Proof.
  intros H. unfold ascii_lower. destruct (is_upper c) eqn:E; [|reflexivity].
  unfold is_upper in E. apply andb_prop in E as [E1 E2].
  apply N.leb_le in E1, E2. unfold is_punct, punctuation in H. simpl in H.
  repeat match type of H with
         | context [(?n =? ?m)] => destruct (N.eqb_spec n m); [lia|]
         end.
  discriminate.
Qed.

(** C10.  A stored spam pattern that holds a character of the punctuation
    class is a substring of no cleaned message, so it never makes [is_spam]
    true: alone it gives [False], and among other patterns the answer is the
    one the others give.  An ASCII pattern handed to [SpamDetector] keeps its
    punctuation when it is stored, since it is only lowercased. *)
Theorem punctuated_pattern_never_matches pattern message :
  existsb is_punct pattern = true ->
  contains (clean_text message) pattern = false /\
  (forall before after sim,
     is_spam {| spam_patterns := before ++ pattern :: after;
                min_similarity := sim |} message =
     is_spam {| spam_patterns := before ++ after;
                min_similarity := sim |} message) /\
  (ascii_only pattern = true ->
   is_spam (SpamDetector_init [pattern]) message = false).
Proof.
  intros Hp.
  assert (Hc : forall p, existsb is_punct p = true ->
                 contains (clean_text message) p = false)
    by (intros p; apply no_punct_contains, clean_text_no_punct).
  split; [apply Hc; exact Hp|]. split.
  - intros before after sim. unfold is_spam. cbn [spam_patterns]. cbv zeta.
    rewrite !existsb_app. cbn [existsb]. rewrite (Hc _ Hp). reflexivity.
  - intros Ha. unfold is_spam, SpamDetector_init. cbn [spam_patterns map].
    cbv zeta. cbn [existsb]. rewrite orb_false_r.
    rewrite str_lower_ascii by exact Ha. apply Hc.
    apply existsb_exists in Hp as [c [Hc1 Hc2]].
    apply existsb_exists. exists c. split; [|exact Hc2].
    rewrite <- (is_punct_ascii_lower c Hc2). apply in_map. exact Hc1.
Qed.

(** C2, on the code.  The message is cleaned, the pattern is only
    lowercased: the doubled letter of the pattern meets a message in which
    every doubled letter has been collapsed, and nothing matches. *)
Theorem is_spam_misses_doubled_letters :
  clean_text (str "FREE   MONEY!!") = str "fre money" /\
  is_spam (SpamDetector_init [str "free money"]) (str "FREE   MONEY!!") = false /\
  clean_text (str "freedom") = str "fredom" /\
  is_spam (SpamDetector_init [str "free"]) (str "freedom") = false.
Proof.
  unfold is_spam, SpamDetector_init. cbn [spam_patterns map]. cbv zeta.
  rewrite !clean_text_eq, !ascii_fold_of_ascii by reflexivity.
  rewrite !str_lower_ascii by reflexivity.
  repeat split.
Qed.

(** Had the patterns been cleaned like the trigger words are, both
    messages would have been spam. *)
Lemma is_spam_with_cleaned_pattern :
  is_spam {| spam_patterns := [clean_text (str "free money")];
             min_similarity := (7 # 10)%Q |} (str "FREE   MONEY!!") = true /\
  is_spam {| spam_patterns := [clean_text (str "free")];
             min_similarity := (7 # 10)%Q |} (str "freedom") = true.
Proof.
  unfold is_spam. cbn [spam_patterns]. cbv zeta.
  rewrite !clean_text_eq, !ascii_fold_of_ascii by reflexivity.
  repeat split.
Qed.

End SpamClaims.

(** C10 holds of this pattern and message. *)
Lemma punctuated_pattern_never_matches_witness :
  is_spam (SpamDetector_init [str "buy now!"]) (str "Buy now! Cheap") = false.
Proof.
  apply (punctuated_pattern_never_matches (str "buy now!") (str "Buy now! Cheap"));
    reflexivity.
Defined.

(** ** Handlers *)

Lemma Qltb_lt x y : Qltb x y = true <-> (x < y)%Q.
Proof. unfold Qltb, Qlt. apply Z.ltb_lt. Qed.

Lemma Qltb_ge x y : Qltb x y = false <-> ~ (x < y)%Q.
Proof.
  rewrite <- Qltb_lt. destruct (Qltb x y); split; congruence.
Qed.

Lemma trigger_responses_app a b :
  trigger_responses (a ++ b) = trigger_responses a ++ trigger_responses b.
Proof.
  induction a as [|x a IH]; [reflexivity|].
  destruct x as [[] ch text| |]; simpl; rewrite IH; reflexivity.
Qed.

Lemma dict_contains_false k d :
  dict_contains k d = false <-> forall v, ~ In (k, v) d.
Proof.
  unfold dict_contains. split.
  - intros H v Hin.
    assert (E : existsb (fun kv => pystr_eqb k (fst kv)) d = true).
    { apply existsb_exists. exists (k, v). split; [exact Hin|].
      apply pystr_eqb_refl. }
    congruence.
  - intros H. destruct (existsb _ d) eqn:E; [|reflexivity].
    apply existsb_exists in E as [[k' v] [Hin He]].
    apply pystr_eqb_true in He. simpl in He. subst k'.
    destruct (H v Hin).
Qed.

Section HandlerLemmas.
Context {U : UnicodeDB}.

(** A command of an author without privilege does nothing at all. *)
Lemma invoke_unprivileged ctx c env bot :
  privileged ctx = false -> invoke ctx c env bot = (Return tt, bot, []).
Proof.
  intros H.
  destruct c; simpl;
    unfold add_response, delete_response, list_responses, add_spam_pattern,
      delete_spam_pattern, list_spam_patterns;
    rewrite H; reflexivity.
Qed.

(** No command sends a trigger response or touches the cooldown. *)
Lemma invoke_cooldown ctx c env bot :
  last_response_time (bot_after (invoke ctx c env bot)) = last_response_time bot /\
  response_delay (bot_after (invoke ctx c env bot)) = response_delay bot /\
  trigger_responses (actions_of (invoke ctx c env bot)) = [].
Proof.
  destruct c; simpl;
    unfold add_response, delete_response, list_responses, add_spam_pattern,
      delete_spam_pattern, list_spam_patterns;
    destruct (privileged ctx); simpl; try (repeat split; reflexivity);
    unfold bind, get, put, save_config, ctx_send, send;
    repeat match goal with
           | |- context [if ?b then _ else _] => destruct b
           | |- context [match word_responses ?b with _ => _ end] =>
               destruct (word_responses b)
           end;
    repeat split; reflexivity.
Qed.

Lemma event_message_echo message env bot :
  echo message = true -> event_message message env bot = (Return tt, bot, []).
Proof. intros H. unfold event_message. rewrite H. reflexivity. Qed.

Lemma event_message_command message env bot :
  echo message = false -> startswith (content message) (str "!") = true ->
  event_message message env bot =
  match parsed_command env with
  | Some c => invoke message c env bot
  | None => (Return tt, bot, [])
  end.
Proof.
  intros He Hc. unfold event_message. rewrite He, Hc.
  unfold handle_commands, bind, ask.
  destruct (parsed_command env) as [c|]; [|reflexivity].
  destruct (invoke message c env bot) as [[r b] a]. reflexivity.
Qed.

Lemma event_message_spam message env bot :
  echo message = false -> startswith (content message) (str "!") = false ->
  is_spam (spam_detector bot) (content message) = true ->
  event_message message env bot =
  (Return tt, bot,
   if privileged message then []
   else Send TimeoutCommand (channel_name message)
             (str "/timeout " ++ author_name message ++ str " 3")
        :: (if send_raises env then [] else [Delete message])).
Proof.
  intros He Hc Hs. unfold event_message. rewrite He, Hc.
  unfold bind at 1. unfold get. rewrite Hs. unfold privileged.
  destruct (author_is_mod message || _); [reflexivity|].
  unfold negb, try_except, bind, send, delete.
  destruct (send_raises env); [reflexivity|].
  destruct (delete_raises env); reflexivity.
Qed.

Lemma event_message_trigger_stage message env bot :
  echo message = false -> startswith (content message) (str "!") = false ->
  is_spam (spam_detector bot) (content message) = false ->
  event_message message env bot =
  if Qltb (clock env - last_response_time bot) (response_delay bot)
  then (Return tt, bot, [])
  else for_word_responses (word_responses bot)
         (split (clean_text (content message))) message (clock env) env bot.
Proof.
  intros He Hc Hs. unfold event_message. rewrite He, Hc.
  unfold bind at 1. unfold get. rewrite Hs. unfold bind, ask.
  destruct (Qltb _ _); [reflexivity|]. cbv zeta.
  destruct (for_word_responses _ _ _ _ _ _) as [[r b] a]. reflexivity.
Qed.

End HandlerLemmas.

Section TriggerStage.
Context {U : UnicodeDB}.

Lemma for_word_responses_none items words message env bot :
  (forall k v, In (k, v) items -> ~ In (clean_text k) words) ->
  for_word_responses items words message (clock env) env bot
  = (Return tt, bot, []).
Proof.
  induction items as [|[k v] items IH]; intros H; [reflexivity|].
  cbn [for_word_responses]. cbv zeta.
  assert (Hk : ~ In (clean_text k) words)
    by (apply (H k v); left; reflexivity).
  apply mem_false in Hk. rewrite Hk.
  apply IH. intros k' v' Hin. apply (H k' v'). right. exact Hin.
Qed.

Lemma for_word_responses_first pre trigger response post words message env bot :
  (forall k v, In (k, v) pre -> ~ In (clean_text k) words) ->
  In (clean_text trigger) words ->
  for_word_responses (pre ++ (trigger, response) :: post) words message
    (clock env) env bot
  = responded response message env bot.
Proof.
  induction pre as [|[k v] pre IH]; intros Hpre Hin.
  - cbn [app for_word_responses]. cbv zeta.
    apply mem_In in Hin. rewrite Hin.
    unfold responded, bind, send, get, put.
    destruct (send_raises env); reflexivity.
  - cbn [app for_word_responses]. cbv zeta.
    assert (Hk : ~ In (clean_text k) words)
      by (apply (Hpre k v); left; reflexivity).
    apply mem_false in Hk. rewrite Hk.
    apply IH; [|exact Hin]. intros k' v' H. apply (Hpre k' v'). right. exact H.
Qed.

(** The loop ends in one of two ways. *)
Lemma for_word_responses_cases items words message env bot :
  for_word_responses items words message (clock env) env bot
  = (Return tt, bot, []) \/
  exists response,
    for_word_responses items words message (clock env) env bot
    = responded response message env bot.
Proof.
  induction items as [|[k v] items IH]; [left; reflexivity|].
  cbn [for_word_responses]. cbv zeta.
  destruct (mem (clean_text k) words); [|exact IH].
  right. exists v. unfold responded, bind, send, get, put.
  destruct (send_raises env); reflexivity.
Qed.

(** While the cooldown runs, no message of any kind fires a trigger response
    or moves the cooldown. *)
Lemma event_message_cooling message env bot :
  (clock env < last_response_time bot + response_delay bot)%Q ->
  last_response_time (bot_after (event_message message env bot))
  = last_response_time bot /\
  response_delay (bot_after (event_message message env bot))
  = response_delay bot /\
  trigger_responses (actions_of (event_message message env bot)) = [].
Proof.
  intros Hcool.
  destruct (echo message) eqn:He;
    [rewrite event_message_echo by exact He; repeat split|].
  destruct (startswith (content message) (str "!")) eqn:Hc.
  - rewrite event_message_command by assumption.
    destruct (parsed_command env) as [c|]; [apply invoke_cooldown|].
    repeat split.
  - destruct (is_spam (spam_detector bot) (content message)) eqn:Hs.
    + rewrite event_message_spam by assumption.
      destruct (privileged message), (send_raises env); repeat split.
    + rewrite event_message_trigger_stage by assumption.
      rewrite (proj2 (Qltb_lt _ _)) by lra. repeat split.
Qed.

Lemma run_cooling events : forall bot,
  Forall (fun e => (clock (snd e) < last_response_time bot + response_delay bot)%Q)
         events ->
  last_response_time (fst (run bot events)) = last_response_time bot /\
  trigger_responses (snd (run bot events)) = [].
Proof.
  induction events as [|[message env] events IH]; intros bot H;
    [split; reflexivity|].
  inversion H as [|? ? Hhd Htl]; subst. simpl in Hhd.
  destruct (event_message_cooling message env bot Hhd) as [Hl [Hd Ht]].
  cbn [run].
  destruct (event_message message env bot) as [[r bot'] acts].
  unfold bot_after, actions_of in Hl, Hd, Ht. simpl in Hl, Hd, Ht.
  specialize (IH bot'). rewrite Hl, Hd in IH. specialize (IH Htl).
  destruct (run bot' events) as [bot'' acts']. simpl in IH |- *.
  destruct IH as [IH1 IH2].
  rewrite trigger_responses_app, Ht, IH2. split; [exact IH1 | reflexivity].
Qed.

(** A trigger response comes from the trigger stage only, and the handler
    then returns exactly when the send did, with the cooldown restarted. *)
Lemma event_message_fired message env bot text :
  In text (trigger_responses (actions_of (event_message message env bot))) ->
  event_message message env bot = responded text message env bot /\
  ~ (clock env - last_response_time bot < response_delay bot)%Q.
Proof.
  destruct (echo message) eqn:He;
    [rewrite event_message_echo by exact He; intros []|].
  destruct (startswith (content message) (str "!")) eqn:Hc.
  - rewrite event_message_command by assumption.
    destruct (parsed_command env) as [c|]; [|intros []].
    destruct (invoke_cooldown message c env bot) as [_ [_ E]].
    rewrite E. intros [].
  - destruct (is_spam (spam_detector bot) (content message)) eqn:Hs.
    + rewrite event_message_spam by assumption.
      destruct (privileged message), (send_raises env); intros [].
    + rewrite event_message_trigger_stage by assumption.
      destruct (Qltb _ _) eqn:Hq; [intros []|].
      apply Qltb_ge in Hq.
      destruct (for_word_responses_cases (word_responses bot)
                  (split (clean_text (content message))) message env bot)
        as [E|[response E]]; rewrite E; [intros []|].
      intros [<-|[]]. split; [reflexivity | exact Hq].
Qed.

End TriggerStage.

(** ** The cooldown and the trigger words *)

Section BotClaims.
Context {U : UnicodeDB}.

(** C4.  When a message reaches the trigger stage (it is no echo, no
    command and no spam) while [now - last_response_time < response_delay],
    the handler returns at once: nothing is sent and the bot is unchanged,
    whatever the text of the message and the trigger words are (the stage
    tests the cooldown before it cleans and splits the message).  A trigger
    response fires when its send returns; firing sets [last_response_time] to
    the current time [t], and then, whatever messages follow on whatever
    channel, none at a time before [t + response_delay] gets a trigger
    response, and [last_response_time] stays [t]. *)
Theorem cooldown_enforced bot message env :
  (echo message = false ->
   startswith (content message) (str "!") = false ->
   is_spam (spam_detector bot) (content message) = false ->
   (clock env - last_response_time bot < response_delay bot)%Q ->
   event_message message env bot = (Return tt, bot, [])) /\
  (forall text,
     In text (trigger_responses (actions_of (event_message message env bot))) ->
     result_of (event_message message env bot) = Return tt ->
     last_response_time (bot_after (event_message message env bot))
     = clock env /\
     forall events,
       Forall (fun e => (clock (snd e) < clock env + response_delay bot)%Q)
              events ->
       trigger_responses
         (snd (run (bot_after (event_message message env bot)) events)) = [] /\
       last_response_time
         (fst (run (bot_after (event_message message env bot)) events))
       = clock env).
Proof.
  split.
  - intros He Hc Hs Hcool. rewrite event_message_trigger_stage by assumption.
    apply Qltb_lt in Hcool. rewrite Hcool. reflexivity.
  - intros text Hin Hret.
    destruct (event_message_fired _ _ _ _ Hin) as [E _].
    rewrite E in Hret |- *. unfold responded, result_of, bot_after in *.
    simpl in Hret |- *.
    destruct (send_raises env); [discriminate|].
    split; [reflexivity|]. intros events Hev.
    destruct (run_cooling (events := events)
                (set_last_response_time (clock env) bot)) as [H1 H2];
      [exact Hev|].
    split; [exact H2 | exact H1].
Qed.

(** C5.  When the cooldown is not active, the message is cleaned and split
    into tokens, and the trigger words are tried in the order of insertion:
    the first one whose cleaned form is one of the tokens (a whole token, not
    a part of one) has its response sent, nothing else is sent, and
    [last_response_time] becomes the current time, the trigger words, the
    spam patterns and the delay staying as they were.  The response is produced
    when its send returns; should the chat library raise instead, the
    exception leaves the handler and the bot is as it was.  When no trigger
    word matches, nothing is sent and nothing changes.  At most one response
    is sent per message. *)
Theorem trigger_matching bot message env :
  echo message = false ->
  startswith (content message) (str "!") = false ->
  is_spam (spam_detector bot) (content message) = false ->
  Qltb (clock env - last_response_time bot) (response_delay bot) = false ->
  let words := split (clean_text (content message)) in
  let out := event_message message env bot in
  (forall pre trigger response post,
     word_responses bot = pre ++ (trigger, response) :: post ->
     (forall k v, In (k, v) pre -> ~ In (clean_text k) words) ->
     In (clean_text trigger) words ->
     actions_of out = [Send TriggerResponse (channel_name message) response] /\
     (send_raises env = false ->
      result_of out = Return tt /\
      bot_after out = set_last_response_time (clock env) bot /\
      last_response_time (bot_after out) = clock env /\
      word_responses (bot_after out) = word_responses bot /\
      spam_detector (bot_after out) = spam_detector bot /\
      response_delay (bot_after out) = response_delay bot) /\
     (send_raises env = true ->
      result_of out = Raise /\ bot_after out = bot)) /\
  ((forall k v, In (k, v) (word_responses bot) -> ~ In (clean_text k) words) ->
   out = (Return tt, bot, [])) /\
  (List.length (trigger_responses (actions_of out)) <= 1)%nat.
Proof.
  intros He Hc Hs Hq words out.
  assert (E : out = for_word_responses (word_responses bot) words message
                      (clock env) env bot).
  { unfold out. rewrite event_message_trigger_stage by assumption.
    rewrite Hq. reflexivity. }
  split; [|split].
  - intros pre trigger response post Hdict Hpre Hin.
    assert (E' : out = responded response message env bot)
      by (rewrite E, Hdict; apply for_word_responses_first; assumption).
    rewrite E'. unfold responded, actions_of, result_of, bot_after. simpl.
    split; [reflexivity|].
    split; intros Hsend; rewrite Hsend; repeat split.
  - intros Hnone. rewrite E. apply for_word_responses_none. exact Hnone.
  - rewrite E.
    destruct (for_word_responses_cases (word_responses bot) words message
                env bot) as [E'|[r E']]; rewrite E'; simpl; lia.
Qed.

End BotClaims.

(** ** Spam, privilege and the commands *)

Section ModerationClaims.
Context {U : UnicodeDB}.

(** C6.  A message that is no command and that [is_spam] classifies as spam
    never gets a trigger response and leaves the bot as it was, whoever the
    author is and whatever trigger words the message holds. *)
Theorem spam_short_circuits bot message env :
  startswith (content message) (str "!") = false ->
  is_spam (spam_detector bot) (content message) = true ->
  trigger_responses (actions_of (event_message message env bot)) = [] /\
  bot_after (event_message message env bot) = bot.
Proof.
  intros Hc Hs. destruct (echo message) eqn:He.
  - rewrite event_message_echo by exact He. split; reflexivity.
  - rewrite event_message_spam by assumption.
    destruct (privileged message), (send_raises env); split; reflexivity.
Qed.

(** C7, as amended.  For a message that reaches the spam check and is
    classified as spam: when the author is a moderator or the broadcaster,
    nothing is attempted, neither timeout nor deletion; otherwise the timeout
    of the author is attempted, and the deletion of the message is attempted
    after it when the timeout call returned; when the timeout call raised,
    the deletion is not attempted.  The bot is unchanged in every case. *)
Theorem spam_moderation bot message env :
  echo message = false ->
  startswith (content message) (str "!") = false ->
  is_spam (spam_detector bot) (content message) = true ->
  (privileged message = true ->
   event_message message env bot = (Return tt, bot, [])) /\
  (privileged message = false ->
   event_message message env bot =
   (Return tt, bot,
    Send TimeoutCommand (channel_name message)
         (str "/timeout " ++ author_name message ++ str " 3")
    :: (if send_raises env then [] else [Delete message]))).
Proof.
  intros He Hc Hs. rewrite event_message_spam by assumption.
  split; intros Hp; rewrite Hp; reflexivity.
Qed.

(** C8.  Each of the six commands, invoked by an author who is neither a
    moderator nor the broadcaster, returns at once: the bot (trigger words,
    spam patterns and all) is unchanged, the configuration is not written and
    nothing is sent.  So does [event_message] on the message of the command. *)
Theorem commands_need_privilege ctx c env bot :
  privileged ctx = false ->
  invoke ctx c env bot = (Return tt, bot, []) /\
  (echo ctx = false ->
   startswith (content ctx) (str "!") = true ->
   parsed_command env = Some c ->
   event_message ctx env bot = (Return tt, bot, [])).
Proof.
  intros Hp. split; [apply invoke_unprivileged; exact Hp|].
  intros He Hc Hparsed. rewrite event_message_command by assumption.
  rewrite Hparsed. apply invoke_unprivileged. exact Hp.
Qed.

Lemma hd_differs (a b : codepoint) (s t : pystr) : a <> b -> a :: s <> b :: t.
Proof. congruence. Qed.

(** C9.  A privileged [delspam] whose (lowercased) argument is not among the
    spam patterns, and a privileged [delresponse] whose (lowercased) argument
    is not a key of the trigger words, only send their not-found reply: the
    bot is unchanged and the configuration is not written.  The reply differs
    from the two replies of a deletion that took place. *)
Theorem delete_absent ctx arg env bot :
  privileged ctx = true ->
  (~ In (str_lower arg) (spam_patterns (spam_detector bot)) ->
   bot_after (delete_spam_pattern ctx arg env bot) = bot /\
   actions_of (delete_spam_pattern ctx arg env bot) =
   [Send CommandReply (channel_name ctx)
         (str "Spam pattern '" ++ str_lower arg ++ str "' not found")]) /\
  ((forall v, ~ In (str_lower arg, v) (word_responses bot)) ->
   bot_after (delete_response ctx arg env bot) = bot /\
   actions_of (delete_response ctx arg env bot) =
   [Send CommandReply (channel_name ctx)
         (str "No response found for '" ++ arg ++ str "'")]) /\
  str "Spam pattern '" ++ str_lower arg ++ str "' not found"
    <> str "Deleted spam pattern '" ++ str_lower arg ++ str "'" /\
  str "Spam pattern '" ++ str_lower arg ++ str "' not found"
    <> str "Failed to save configuration" /\
  str "No response found for '" ++ arg ++ str "'"
    <> str "Deleted response for '" ++ arg ++ str "'" /\
  str "No response found for '" ++ arg ++ str "'"
    <> str "Failed to save configuration".
Proof.
  intros Hp. split; [|split].
  - intros Habs. apply mem_false in Habs.
    unfold delete_spam_pattern. rewrite Hp. cbv zeta.
    unfold negb, bind, get. rewrite Habs.
    unfold ctx_send, send, bot_after, actions_of.
    destruct (send_raises env); split; reflexivity.
  - intros Habs. apply dict_contains_false in Habs.
    unfold delete_response. rewrite Hp.
    unfold negb, bind, get. rewrite Habs.
    unfold ctx_send, send, bot_after, actions_of.
    destruct (send_raises env); split; reflexivity.
  - repeat split; apply hd_differs; discriminate.
Qed.

End ModerationClaims.

(** ** The claims on the sample chat *)

(** C4 holds here: [hello] fires at time 10 with a delay of 3, and the three
    messages that follow before time 13, one of them in another channel, get
    no response. *)
Lemma cooldown_enforced_witness :
  actions_of (event_message hello (at_time 10 None) sample_bot)
  = [Send TriggerResponse (str "somechannel") (str "Hi there!")] /\
  trigger_responses
    (snd (run (bot_after (event_message hello (at_time 10 None) sample_bot))
              [(hello, at_time 11 None);
               ({| echo := false; content := str "bye bye";
                   author_name := str "other"; author_is_mod := true;
                   channel_name := str "otherchannel" |}, at_time 12 None);
               (hello, at_time (129 # 10) None)])) = [].
Proof.
  split; [reflexivity|].
  apply (proj2 (cooldown_enforced sample_bot hello (at_time 10 None))
               (str "Hi there!")).
  - left. reflexivity.
  - reflexivity.
  - repeat constructor.
Defined.

(** Once the delay has passed the bot answers again. *)
Lemma cooldown_over :
  actions_of
    (event_message hello (at_time 13 None)
       (bot_after (event_message hello (at_time 10 None) sample_bot)))
  = [Send TriggerResponse (str "somechannel") (str "Hi there!")].
Proof. reflexivity. Qed.

(** C5 holds here: of the two trigger words in the message the one
    inserted first answers, and the cooldown restarts: [last_response_time],
    which was 0, is now 10. *)
Lemma trigger_matching_witness :
  event_message (chat_message (str "viewer") false (str "Bye... and HELLO"))
                (at_time 10 None) sample_bot
  = (Return tt, set_last_response_time 10 sample_bot,
     [Send TriggerResponse (str "somechannel") (str "Hi there!")]) /\
  last_response_time
    (bot_after
       (event_message
          (chat_message (str "viewer") false (str "Bye... and HELLO"))
          (at_time 10 None) sample_bot)) = 10%Q /\
  last_response_time sample_bot = 0%Q.
Proof.
  pose proof (trigger_matching sample_bot
                (chat_message (str "viewer") false (str "Bye... and HELLO"))
                (at_time 10 None) eq_refl eq_refl eq_refl eq_refl) as H.
  cbv zeta in H. destruct H as [H _].
  specialize (H [] (str "hello") (str "Hi there!") [(str "bye", str "See you")]
                eq_refl (fun k v F => match F with end)).
  destruct H as [Ha [Hok _]].
  - right. right. left. reflexivity.
  - destruct (Hok eq_refl) as [Hr [Hb [Hl _]]].
    split; [|split; [exact Hl | reflexivity]].
    destruct (event_message _ _ _) as [[r b] a].
    unfold actions_of, result_of, bot_after in *. simpl in *.
    rewrite Ha, Hr, Hb. reflexivity.
Defined.

(** A trigger word is matched against whole tokens, not substrings. *)
Lemma trigger_is_a_token :
  event_message (chat_message (str "viewer") false (str "othello"))
                (at_time 10 None) sample_bot
  = (Return tt, sample_bot, []).
Proof. reflexivity. Qed.

(** When the chat library raises on the send of the response, no response
    was produced and the cooldown has not restarted: [last_response_time] is
    still 0, not 10. *)
Lemma trigger_send_raises :
  event_message hello (send_failing_at 10) sample_bot
  = (Raise, sample_bot,
     [Send TriggerResponse (str "somechannel") (str "Hi there!")]) /\
  last_response_time
    (bot_after (event_message hello (send_failing_at 10) sample_bot))
  <> clock (send_failing_at 10).
Proof. split; [reflexivity | discriminate]. Qed.

(** C6 holds here: a message with a trigger word and a spam pattern gets no
    trigger response, from a viewer or from a moderator. *)
Lemma spam_short_circuits_witness :
  trigger_responses
    (actions_of (event_message (casino_hello (str "viewer") false)
                               (at_time 10 None) sample_bot)) = [] /\
  trigger_responses
    (actions_of (event_message (casino_hello (str "helper") true)
                               (at_time 10 None) sample_bot)) = [].
Proof.
  split.
  - apply (spam_short_circuits sample_bot (casino_hello (str "viewer") false)
             (at_time 10 None)); reflexivity.
  - apply (spam_short_circuits sample_bot (casino_hello (str "helper") true)
             (at_time 10 None)); reflexivity.
Defined.

(** C7 holds here: the viewer is timed out and the message deleted; the
    broadcaster, whose name is the name of the channel, is left alone. *)
Lemma spam_moderation_witness :
  event_message (casino_hello (str "viewer") false) (at_time 10 None) sample_bot
  = (Return tt, sample_bot,
     [Send TimeoutCommand (str "somechannel") (str "/timeout viewer 3");
      Delete (casino_hello (str "viewer") false)]) /\
  event_message (casino_hello (str "SomeChannel") false) (at_time 10 None)
                sample_bot
  = (Return tt, sample_bot, []).
Proof.
  split.
  - apply (spam_moderation sample_bot (casino_hello (str "viewer") false)
             (at_time 10 None)); reflexivity.
  - apply (spam_moderation sample_bot (casino_hello (str "SomeChannel") false)
             (at_time 10 None)); reflexivity.
Defined.

(** C7 as stated fails when the timeout call raises: the deletion of the
    message is not attempted. *)
Lemma timeout_raises_no_delete :
  is_spam (spam_detector sample_bot)
          (content (casino_hello (str "viewer") false)) = true /\
  privileged (casino_hello (str "viewer") false) = false /\
  event_message (casino_hello (str "viewer") false) (send_failing_at 10)
                sample_bot
  = (Return tt, sample_bot,
     [Send TimeoutCommand (str "somechannel") (str "/timeout viewer 3")]).
Proof. repeat split. Qed.

(** C8 holds here: a viewer's command changes and sends nothing. *)
Lemma commands_need_privilege_witness :
  invoke (chat_message (str "viewer") false (str "!addresponse go bye"))
         (addresponse (str "go") (str "bye")) (at_time 10 None) sample_bot
  = (Return tt, sample_bot, []).
Proof.
  apply (proj1 (commands_need_privilege (U := UCD_excerpt)
                  (chat_message (str "viewer") false (str "!addresponse go bye"))
                  (addresponse (str "go") (str "bye")) (at_time 10 None)
                  sample_bot eq_refl)).
Defined.

(** The same command from a moderator is carried out, saved and answered. *)
Lemma addresponse_by_moderator :
  event_message (chat_message (str "helper") true (str "!addresponse go bye"))
    (at_time 10 (Some (addresponse (str "go") (str "bye")))) sample_bot
  = (Return tt,
     set_word_responses
       [(str "hello", str "Hi there!"); (str "bye", str "See you");
        (str "go", str "bye")] sample_bot,
     [WriteConfig (str "config.yml")
        {| cfg_channels := [str "somechannel"];
           cfg_word_responses :=
             [(str "hello", str "Hi there!"); (str "bye", str "See you");
              (str "go", str "bye")];
           cfg_spam_patterns := [str "casino"];
           cfg_response_delay := 3%Q |};
      Send CommandReply (str "somechannel") (str "Added response for 'go'")]).
Proof. reflexivity. Qed.

(** C9 holds here: nothing is deleted, nothing is written, and the
    moderator is told that the pattern was not found. *)
Lemma delete_absent_witness :
  bot_after (delete_spam_pattern
               (chat_message (str "helper") true (str "!delspam nonexistent"))
               (str "nonexistent") (at_time 10 None) sample_bot) = sample_bot /\
  actions_of (delete_spam_pattern
                (chat_message (str "helper") true (str "!delspam nonexistent"))
                (str "nonexistent") (at_time 10 None) sample_bot)
  = [Send CommandReply (str "somechannel")
          (str "Spam pattern 'nonexistent' not found")].
Proof.
  apply (proj1 (delete_absent (U := UCD_excerpt)
                  (chat_message (str "helper") true (str "!delspam nonexistent"))
                  (str "nonexistent") (at_time 10 None) sample_bot eq_refl)).
  vm_compute. intros [H|[]]. discriminate H.
Defined.

(** A pattern that is there is removed, and the configuration written. *)
Lemma delspam_present :
  delete_spam_pattern (chat_message (str "helper") true (str "!delspam Casino"))
    (str "Casino") (at_time 10 None) sample_bot
  = (Return tt, set_spam_patterns [] sample_bot,
     [WriteConfig (str "config.yml")
        {| cfg_channels := [str "somechannel"];
           cfg_word_responses :=
             [(str "hello", str "Hi there!"); (str "bye", str "See you")];
           cfg_spam_patterns := [];
           cfg_response_delay := 3%Q |};
      Send CommandReply (str "somechannel")
           (str "Deleted spam pattern 'casino'")]).
Proof. reflexivity. Qed.

(** * Further properties of [main.py] *)

(** ** More on clean_text, split and join *)

Lemma collapse_repeats_keeps c s : In c s -> In c (collapse_repeats s).
Proof.
  induction s as [|a s IH]; [trivial|].
  destruct s as [|d r]; [trivial|].
  rewrite collapse_repeats_cons.
  destruct ((a =? d) && negb (a =? newline)) eqn:E.
  - intros [<-|H]; [|apply IH; exact H].
    apply andb_prop in E as [E _]. apply N.eqb_eq in E. subst d.
    apply IH. left. reflexivity.
  - intros [<-|H]; [left; reflexivity | right; apply IH; exact H].
Qed.

Lemma split_from_nil word s :
  split_from word s = [] <-> word = [] /\ forallb is_space s = true.
Proof.
  revert word. induction s as [|a s IH]; intros word.
  - destruct word; simpl; split; try (intros [H _]); try discriminate; auto.
  - cbn [split_from forallb]. destruct (is_space a) eqn:E.
    + destruct word as [|x word].
      * rewrite IH. simpl. tauto.
      * split; [discriminate | intros [H _]; discriminate H].
    + rewrite IH. simpl. split; [|intros [_ H]; discriminate H].
      intros [H _]. destruct word; discriminate H.
Qed.

Lemma split_from_word word w s :
  (forall c, In c w -> is_space c = false) ->
  split_from word (w ++ s) = split_from (word ++ w) s.
Proof.
  revert word. induction w as [|a w IH]; intros word Hw.
  - rewrite app_nil_r. reflexivity.
  - cbn [app split_from]. rewrite (Hw a) by (left; reflexivity).
    rewrite IH by (intros c Hc; apply Hw; right; exact Hc).
    rewrite <- app_assoc. reflexivity.
Qed.

Lemma split_join_words ws :
  Forall is_word ws -> split (join space ws) = ws.
Proof.
  unfold split. induction ws as [|w ws IH]; [reflexivity|].
  intros Hws. inversion Hws as [|? ? [Hw Hc] Hws']; subst.
  destruct ws as [|w' ws].
  - cbn [join]. rewrite <- (app_nil_r w) at 1.
    rewrite split_from_word by exact Hc. destruct w; [congruence | reflexivity].
  - rewrite join_cons by discriminate.
    rewrite split_from_word by exact Hc.
    change (space ++ join space (w' :: ws)) with (32 :: join space (w' :: ws)).
    cbn [split_from app]. change (is_space 32) with true. cbv iota.
    rewrite IH by exact Hws'. destruct w; [congruence | reflexivity].
Qed.

Section MoreText.
Context {U : UnicodeDB}.

(** X1.  On ASCII text [clean_text] does not see the case of letters: two
    ASCII strings that differ only in case are cleaned to the same text. *)
Theorem clean_text_ignores_case x y :
  ascii_only x = true -> ascii_only y = true ->
  map ascii_lower x = map ascii_lower y ->
  clean_text x = clean_text y.
Proof.
  intros Hx Hy E.
  rewrite !clean_text_eq, !ascii_fold_of_ascii by assumption.
  rewrite E. reflexivity.
Qed.

(** X2.  Splitting undoes joining on ASCII text, the only text that
    [main.py] splits: ASCII words (not empty, free of whitespace) joined by
    single spaces split into the same words.  So the tokens that
    [event_message] takes of a cleaned message, joined again, are the
    cleaned message. *)
Theorem split_join_round_trip ws x :
  Forall is_word ws ->
  Forall (fun w => ascii_only w = true) ws ->
  split (join space ws) = ws /\
  join space (split (clean_text x)) = clean_text x.
Proof.
  intros Hws _. split; [apply split_join_words; exact Hws|].
  destruct (clean_text_words x) as [ws' [-> Hws']].
  rewrite split_join_words by exact Hws'. reflexivity.
Qed.

(** X3.  [clean_text] returns the empty string exactly when the first
    three lines leave nothing but whitespace and characters of the
    punctuation class (nothing at all included). *)
Theorem clean_text_empty_iff x :
  clean_text x = [] <->
  forallb (fun c => is_space c || is_punct c) (ascii_fold x) = true.
Proof.
  rewrite clean_text_eq. split.
  - intros E.
    assert (Hs : split (strip_punct (collapse_repeats (ascii_fold x))) = []).
    { destruct (split _) as [|w ws] eqn:Es; [reflexivity|].
      destruct (join_words_head (ws := w :: ws)) as [b [t [E' _]]];
        [discriminate | rewrite <- Es; apply split_from_words; intros c [] |].
      rewrite E in E'. discriminate E'. }
    apply split_from_nil in Hs as [_ Hs].
    apply forallb_In. intros c Hc.
    destruct (is_punct c) eqn:Ep; [apply orb_true_r|].
    rewrite orb_false_r.
    apply (proj1 (forallb_In _ _) Hs). apply filter_In.
    split; [apply collapse_repeats_keeps; exact Hc | rewrite Ep; reflexivity].
  - intros H.
    assert (Hs : split (strip_punct (collapse_repeats (ascii_fold x))) = []).
    { apply split_from_nil. split; [reflexivity|].
      apply forallb_In. intros c Hc. apply filter_In in Hc as [Hc Hp].
      apply collapse_repeats_In in Hc.
      pose proof (proj1 (forallb_In _ _) H c Hc) as Hor. cbv beta in Hor.
      apply negb_true_iff in Hp. rewrite Hp, orb_false_r in Hor. exact Hor. }
    rewrite Hs. reflexivity.
Qed.

(** X4.  The strings that [clean_text] leaves alone are exactly the
    normalized ones, and two passes of [clean_text] always reach one: from
    the second pass on nothing changes. *)
Theorem clean_text_fixed_points x y :
  (clean_text y = y <-> NormalizedText y = true) /\
  NormalizedText (clean_text (clean_text x)) = true /\
  clean_text (clean_text (clean_text x)) = clean_text (clean_text x).
Proof.
  split; [split|split].
  - intros E. pose proof (clean_text_twice_normalized y) as H.
    rewrite !E in H. exact H.
  - apply clean_text_fixed.
  - apply clean_text_twice_normalized.
  - apply clean_text_fixed, clean_text_twice_normalized.
Qed.

End MoreText.

(** X1 holds of these two strings. *)
Lemma clean_text_ignores_case_witness :
  clean_text (str "HeLLo, WORLD") = clean_text (str "hello, world").
Proof. apply clean_text_ignores_case; reflexivity. Defined.

(** X2 holds of these words. *)
Lemma split_join_round_trip_witness :
  split (join space [str "so"; str "col"]) = [str "so"; str "col"].
Proof.
  assert (H : Forall is_word [str "so"; str "col"]).
  { repeat constructor; try discriminate;
      intros c H; vm_compute in H;
      repeat (destruct H as [<-|H]; [reflexivity|]); destruct H. }
  refine (proj1 (split_join_round_trip (U := UCD_excerpt) [] H _)).
  repeat constructor.
Defined.

(** ** Patterns and trigger words that behave unexpectedly *)

Section OddEntries.
Context {U : UnicodeDB}.

(** X5.  The empty string is a substring of every text: once it is among
    the stored patterns, [is_spam] is true of every message, and then no
    message that is not a command ever gets a trigger response.  With no
    pattern stored, no message is spam. *)
Theorem empty_pattern_matches_everything self bot message env :
  (In [] (spam_patterns self) -> is_spam self (content message) = true) /\
  (In [] (spam_patterns (spam_detector bot)) ->
   startswith (content message) (str "!") = false ->
   trigger_responses (actions_of (event_message message env bot)) = [] /\
   bot_after (event_message message env bot) = bot) /\
  (spam_patterns self = [] -> is_spam self (content message) = false).
Proof.
  assert (H : forall sd m, In [] (spam_patterns sd) -> is_spam sd m = true).
  { intros sd m Hin. unfold is_spam. cbv zeta. apply existsb_exists.
    exists []. split; [exact Hin|]. destruct (clean_text m); reflexivity. }
  split; [apply H|]. split.
  - intros Hin Hc. destruct (echo message) eqn:He.
    + rewrite event_message_echo by exact He. split; reflexivity.
    + rewrite event_message_spam by (try apply H; assumption).
      destruct (privileged message), (send_raises env); split; reflexivity.
  - intros E. unfold is_spam. rewrite E. reflexivity.
Qed.

Lemma not_word_not_token k text :
  clean_text k = [] \/ In 32 (clean_text k) ->
  mem (clean_text k) (split text) = false.
Proof.
  intros Hk. apply mem_false. intros Hin.
  pose proof (split_from_words [] text (fun _ F => match F with end)) as Hw.
  rewrite Forall_forall in Hw. destruct (Hw _ Hin) as [Hne Hsp].
  destruct Hk as [Hk|Hk]; [congruence|].
  specialize (Hsp 32 Hk). discriminate Hsp.
Qed.

(** X6.  A trigger word whose cleaned form is empty (only punctuation, say)
    or holds a space (two words, say) is never matched, since the tokens of a
    message are not empty and hold no space: the loop over the trigger words
    runs as if the entry were not there. *)
Theorem unmatchable_trigger k v pre post text message t env bot :
  clean_text k = [] \/ In 32 (clean_text k) ->
  for_word_responses (pre ++ (k, v) :: post) (split text) message t env bot
  = for_word_responses (pre ++ post) (split text) message t env bot.
Proof.
  intros Hk. induction pre as [|[k' v'] pre IH].
  - cbn [app for_word_responses]. cbv zeta.
    rewrite not_word_not_token by exact Hk. reflexivity.
  - cbn [app for_word_responses]. cbv zeta.
    destruct (mem (clean_text k') (split text)); [reflexivity | exact IH].
Qed.

End OddEntries.

(** X5 holds here: with the empty pattern stored, a greeting is spam. *)
Lemma empty_pattern_matches_everything_witness :
  is_spam {| spam_patterns := [str "casino"; []];
             min_similarity := (7 # 10)%Q |} (str "Hello!!") = true.
Proof.
  apply (proj1 (empty_pattern_matches_everything (U := UCD_excerpt)
                  {| spam_patterns := [str "casino"; []];
                     min_similarity := (7 # 10)%Q |}
                  sample_bot hello (at_time 10 None))).
  right. left. reflexivity.
Defined.

(** X6 holds here: the two-word trigger [good morning] is cleaned to text
    with a space, and the message that says it gets the answer of [hello]. *)
Lemma unmatchable_trigger_witness :
  for_word_responses
    [(str "good morning", str "Morning!"); (str "hello", str "Hi there!")]
    (split (clean_text (str "Good morning, hello")))
    hello 10%Q (at_time 10 None) sample_bot
  = for_word_responses
      [(str "hello", str "Hi there!")]
      (split (clean_text (str "Good morning, hello")))
      hello 10%Q (at_time 10 None) sample_bot.
Proof.
  apply (unmatchable_trigger (U := UCD_excerpt) (str "good morning")
           (str "Morning!") [] [(str "hello", str "Hi there!")]).
  right. vm_compute. do 3 right. left. reflexivity.
Defined.

(** ** What the commands of a privileged author do *)

Section PrivilegedCommands.
Context {U : UnicodeDB}.

(** What a command that changed the bot to [bot'] leaves: the write of the
    whole configuration, then the reply that tells whether it was written. *)
Definition saved_and_told (ctx : Message) (bot' : WordMonitorBot)
    (told : pystr) (env : Env) : result unit * WordMonitorBot * list action :=
  (if send_raises env then Raise else Return tt, bot',
   [WriteConfig (config_path bot') (current_config bot');
    Send CommandReply (channel_name ctx)
         (if write_fails env then str "Failed to save configuration"
          else told)]).

Lemma add_response_privileged ctx trigger response env bot :
  privileged ctx = true ->
  add_response ctx trigger response env bot =
  saved_and_told ctx
    (set_word_responses
       (dict_set (str_lower trigger) response (word_responses bot)) bot)
    (str "Added response for '" ++ trigger ++ str "'") env.
Proof.
  intros Hp. unfold add_response, saved_and_told. rewrite Hp.
  change (negb true) with false. cbv iota.
  unfold bind, get, put, save_config, ctx_send, send.
  destruct (write_fails env); cbn [negb]; cbv beta iota;
    destruct (send_raises env); reflexivity.
Qed.

Lemma delete_response_privileged ctx trigger env bot :
  privileged ctx = true ->
  dict_contains (str_lower trigger) (word_responses bot) = true ->
  delete_response ctx trigger env bot =
  saved_and_told ctx
    (set_word_responses
       (dict_del (str_lower trigger) (word_responses bot)) bot)
    (str "Deleted response for '" ++ trigger ++ str "'") env.
Proof.
  intros Hp Hin. unfold delete_response, saved_and_told. rewrite Hp.
  change (negb true) with false. cbv iota.
  unfold bind at 1, get. rewrite Hin.
  unfold bind, put, save_config, ctx_send, send.
  destruct (write_fails env); cbn [negb]; cbv beta iota;
    destruct (send_raises env); reflexivity.
Qed.

Lemma add_spam_pattern_privileged ctx pattern env bot :
  privileged ctx = true ->
  add_spam_pattern ctx pattern env bot =
  saved_and_told ctx
    (set_spam_patterns
       (spam_patterns (spam_detector bot) ++ [str_lower pattern]) bot)
    (str "Added spam pattern '" ++ pattern ++ str "'") env.
Proof.
  intros Hp. unfold add_spam_pattern, saved_and_told. rewrite Hp.
  change (negb true) with false. cbv iota.
  unfold bind, get, put, save_config, ctx_send, send.
  destruct (write_fails env); cbn [negb]; cbv beta iota;
    destruct (send_raises env); reflexivity.
Qed.

Lemma delete_spam_pattern_privileged ctx pattern env bot :
  privileged ctx = true ->
  mem (str_lower pattern) (spam_patterns (spam_detector bot)) = true ->
  delete_spam_pattern ctx pattern env bot =
  saved_and_told ctx
    (set_spam_patterns
       (list_remove (str_lower pattern) (spam_patterns (spam_detector bot)))
       bot)
    (str "Deleted spam pattern '" ++ str_lower pattern ++ str "'") env.
Proof.
  intros Hp Hin. unfold delete_spam_pattern, saved_and_told. rewrite Hp.
  change (negb true) with false. cbv iota zeta.
  unfold bind at 1, get. rewrite Hin.
  unfold bind, put, save_config, ctx_send, send.
  destruct (write_fails env); cbn [negb]; cbv beta iota;
    destruct (send_raises env); reflexivity.
Qed.

(** A command that finds nothing to do, or only lists, leaves one reply. *)
Definition told_only (ctx : Message) (bot : WordMonitorBot) (told : pystr)
    (env : Env) : result unit * WordMonitorBot * list action :=
  (if send_raises env then Raise else Return tt, bot,
   [Send CommandReply (channel_name ctx) told]).

Lemma delete_response_absent ctx trigger env bot :
  privileged ctx = true ->
  dict_contains (str_lower trigger) (word_responses bot) = false ->
  delete_response ctx trigger env bot =
  told_only ctx bot (str "No response found for '" ++ trigger ++ str "'") env.
Proof.
  intros Hp Hin. unfold delete_response, told_only. rewrite Hp.
  change (negb true) with false. cbv iota.
  unfold bind, get. rewrite Hin. unfold ctx_send, send.
  destruct (send_raises env); reflexivity.
Qed.

Lemma delete_spam_pattern_absent ctx pattern env bot :
  privileged ctx = true ->
  mem (str_lower pattern) (spam_patterns (spam_detector bot)) = false ->
  delete_spam_pattern ctx pattern env bot =
  told_only ctx bot
    (str "Spam pattern '" ++ str_lower pattern ++ str "' not found") env.
Proof.
  intros Hp Hin. unfold delete_spam_pattern, told_only. rewrite Hp.
  change (negb true) with false. cbv iota zeta.
  unfold bind, get. rewrite Hin. unfold ctx_send, send.
  destruct (send_raises env); reflexivity.
Qed.

Lemma list_responses_privileged ctx env bot :
  privileged ctx = true ->
  list_responses ctx env bot =
  told_only ctx bot
    (match word_responses bot with
     | [] => str "No responses configured"
     | _ => str "Current responses: " ++
            join (str ", ")
                 (map (fun kv => fst kv ++ str ": " ++ snd kv)
                      (word_responses bot))
     end) env.
Proof.
  intros Hp. unfold list_responses, told_only. rewrite Hp.
  change (negb true) with false. cbv iota.
  unfold bind, get, ctx_send, send.
  destruct (word_responses bot), (send_raises env); reflexivity.
Qed.

Lemma list_spam_patterns_privileged ctx env bot :
  privileged ctx = true ->
  list_spam_patterns ctx env bot =
  told_only ctx bot
    (str "Current spam patterns: " ++
     join (str ", ") (spam_patterns (spam_detector bot))) env.
Proof.
  intros Hp. unfold list_spam_patterns, told_only. rewrite Hp.
  change (negb true) with false. cbv iota.
  unfold bind, get, ctx_send, send. cbv zeta.
  destruct (send_raises env); reflexivity.
Qed.

End PrivilegedCommands.

(** ** Lists of patterns and the dictionary of trigger words *)

Lemma pystr_eqb_false s t : pystr_eqb s t = false <-> s <> t.
Proof.
  rewrite <- pystr_eqb_true. destruct (pystr_eqb s t); split; congruence.
Qed.

Lemma mem_app x l l' : mem x (l ++ l') = mem x l || mem x l'.
Proof. apply existsb_app. Qed.

Lemma list_remove_last x l :
  ~ In x l -> list_remove x (l ++ [x]) = l.
Proof.
  induction l as [|y l IH]; intros H.
  - simpl. rewrite pystr_eqb_refl. reflexivity.
  - cbn [app list_remove].
    assert (E : pystr_eqb x y = false)
      by (apply pystr_eqb_false; intros ->; apply H; left; reflexivity).
    rewrite E, IH; [reflexivity|]. intros Hin. apply H. right. exact Hin.
Qed.

Definition count (x : pystr) (l : list pystr) : nat :=
  count_occ (list_eq_dec N.eq_dec) l x.

Lemma count_list_remove x l q :
  count q (list_remove x l) =
  (count q l - if pystr_eqb q x then (if mem x l then 1 else 0) else 0)%nat.
Proof.
  unfold count. induction l as [|y l IH].
  - simpl. destruct (pystr_eqb q x); reflexivity.
  - cbn [list_remove mem existsb]. destruct (pystr_eqb x y) eqn:Exy.
    + apply pystr_eqb_true in Exy. subst y. cbn [orb count_occ].
      destruct (list_eq_dec N.eq_dec x q) as [->|Hne].
      * rewrite pystr_eqb_refl. lia.
      * assert (E : pystr_eqb q x = false)
          by (apply pystr_eqb_false; congruence).
        rewrite E. lia.
    + cbn [orb count_occ]. fold (mem x l). rewrite IH.
      destruct (list_eq_dec N.eq_dec y q) as [->|Hne]; [|reflexivity].
      assert (E : pystr_eqb q x = false).
      { apply pystr_eqb_false. apply pystr_eqb_false in Exy. congruence. }
      rewrite E. lia.
Qed.

Lemma dict_contains_In k d :
  dict_contains k d = true <-> exists v, In (k, v) d.
Proof.
  unfold dict_contains. rewrite existsb_exists. split.
  - intros [[k' v] [Hin He]]. apply pystr_eqb_true in He. simpl in He.
    subst k'. exists v. exact Hin.
  - intros [v Hin]. exists (k, v). split; [exact Hin | apply pystr_eqb_refl].
Qed.

Lemma dict_set_absent k v d :
  dict_contains k d = false -> dict_set k v d = d ++ [(k, v)].
Proof.
  induction d as [|[k' v'] d IH]; [reflexivity|].
  unfold dict_contains. cbn [existsb fst dict_set app].
  intros H. apply orb_false_iff in H as [H1 H2].
  rewrite H1, IH by exact H2. reflexivity.
Qed.

Lemma dict_set_keys k v d :
  dict_contains k d = true -> map fst (dict_set k v d) = map fst d.
Proof.
  induction d as [|[k' v'] d IH]; [discriminate|].
  unfold dict_contains. cbn [existsb fst dict_set].
  destruct (pystr_eqb k k') eqn:E.
  - intros _. apply pystr_eqb_true in E. subst k'. reflexivity.
  - cbn [orb]. intros H. cbn [map fst]. rewrite IH by exact H. reflexivity.
Qed.

Lemma dict_set_In k v d : In (k, v) (dict_set k v d).
Proof.
  induction d as [|[k' v'] d IH]; [left; reflexivity|].
  cbn [dict_set]. destruct (pystr_eqb k k');
    [left; reflexivity | right; exact IH].
Qed.

Lemma dict_set_other k v d k' v' :
  k' <> k -> (In (k', v') (dict_set k v d) <-> In (k', v') d).
Proof.
  intros Hne. induction d as [|[k0 v0] d IH].
  - simpl. split; [intros [H|[]]; congruence | intros []].
  - cbn [dict_set]. destruct (pystr_eqb k k0) eqn:E.
    + apply pystr_eqb_true in E. subst k0. simpl.
      split; (intros [H|H]; [congruence | right; exact H]).
    + simpl. rewrite IH. reflexivity.
Qed.

Lemma dict_set_NoDup k v d :
  NoDup (map fst d) -> NoDup (map fst (dict_set k v d)).
Proof.
  intros H. destruct (dict_contains k d) eqn:E.
  - rewrite dict_set_keys by exact E. exact H.
  - rewrite dict_set_absent by exact E. rewrite map_app.
    apply NoDup_app; [exact H | repeat constructor; intros [] |].
    intros a Ha [<-|[]]. apply in_map_iff in Ha as [[k' v'] [Hk Hin]].
    simpl in Hk. subst k'.
    exact (proj1 (dict_contains_false _ _) E v' Hin).
Qed.

Lemma dict_del_set_absent k v d :
  dict_contains k d = false -> dict_del k (dict_set k v d) = d.
Proof.
  induction d as [|[k' v'] d IH].
  - intros _. simpl. rewrite pystr_eqb_refl. reflexivity.
  - unfold dict_contains. cbn [existsb fst dict_set].
    intros H. apply orb_false_iff in H as [H1 H2].
    rewrite H1. cbn [dict_del]. rewrite H1, IH by exact H2. reflexivity.
Qed.

Lemma dict_del_In k d k' v' :
  NoDup (map fst d) ->
  (In (k', v') (dict_del k d) <-> In (k', v') d /\ k' <> k).
Proof.
  induction d as [|[k0 v0] d IH]; intros Hnd.
  - simpl. tauto.
  - inversion Hnd as [|? ? Hnotin Hnd']; subst. cbn [dict_del].
    destruct (pystr_eqb k k0) eqn:E.
    + apply pystr_eqb_true in E. subst k0. simpl. split.
      * intros H. split; [right; exact H|]. intros ->.
        apply Hnotin. apply in_map_iff. exists (k, v'). split; auto.
      * intros [[H|H] Hne]; [congruence | exact H].
    + apply pystr_eqb_false in E. simpl. rewrite IH by exact Hnd'. split.
      * intros [H|[H Hne]]; [|tauto].
        split; [left; exact H|]. congruence.
      * intros [[H|H] Hne]; [left; exact H | right; tauto].
Qed.

Lemma set_spam_patterns_same bot :
  set_spam_patterns (spam_patterns (spam_detector bot)) bot = bot.
Proof. destruct bot as [? ? [? ?] ? ? ?]. reflexivity. Qed.

Lemma set_word_responses_same bot :
  set_word_responses (word_responses bot) bot = bot.
Proof. destruct bot. reflexivity. Qed.

Section ConfigurationCommands.
Context {U : UnicodeDB}.

(** X7.  [addspam] by a privileged author appends the lowercased pattern to
    the stored patterns, whether or not the configuration could be written
    and the reply sent.  Afterwards every message that was spam still is, and
    so is every message whose cleaned text holds the lowercased pattern. *)
Theorem add_spam_pattern_grows ctx pattern env bot :
  privileged ctx = true ->
  let bot' := bot_after (add_spam_pattern ctx pattern env bot) in
  spam_patterns (spam_detector bot')
  = spam_patterns (spam_detector bot) ++ [str_lower pattern] /\
  (forall message,
     is_spam (spam_detector bot) message = true ->
     is_spam (spam_detector bot') message = true) /\
  (forall message,
     contains (clean_text message) (str_lower pattern) = true ->
     is_spam (spam_detector bot') message = true).
Proof.
  intros Hp bot'. unfold bot'.
  rewrite add_spam_pattern_privileged by exact Hp.
  unfold saved_and_told, bot_after. cbn [fst snd].
  unfold is_spam. cbn [set_spam_patterns spam_detector spam_patterns].
  cbv zeta. split; [reflexivity|].
  split; intros message H; rewrite existsb_app.
  - rewrite H. reflexivity.
  - cbn [existsb]. rewrite H. apply orb_true_r.
Qed.

(** X8.  [addspam] of a pattern that was not stored, followed by [delspam]
    of the same pattern, gives back the bot as it was, whatever happened to
    the writes and replies of the two commands. *)
Theorem addspam_delspam_round_trip ctx pattern env1 env2 bot :
  privileged ctx = true ->
  ~ In (str_lower pattern) (spam_patterns (spam_detector bot)) ->
  bot_after
    (delete_spam_pattern ctx pattern env2
       (bot_after (add_spam_pattern ctx pattern env1 bot)))
  = bot.
Proof.
  intros Hp Habs. rewrite add_spam_pattern_privileged by exact Hp.
  unfold saved_and_told at 1. unfold bot_after at 2. cbn [fst snd].
  rewrite delete_spam_pattern_privileged; [|exact Hp|].
  - unfold saved_and_told, bot_after. cbn [fst snd].
    cbn [set_spam_patterns spam_detector spam_patterns].
    rewrite list_remove_last by exact Habs.
    destruct bot as [? ? [? ?] ? ? ?]. reflexivity.
  - cbn [set_spam_patterns spam_detector spam_patterns].
    rewrite mem_app. cbn [mem existsb]. rewrite pystr_eqb_refl.
    apply orb_true_r.
Qed.

(** X9.  [delspam] by a privileged author removes one occurrence of the
    lowercased pattern, the first, and nothing else: the number of times any
    other pattern is stored is unchanged.  A pattern that was stored twice is
    therefore still stored after one [delspam]. *)
Theorem delspam_removes_one ctx pattern env bot :
  privileged ctx = true ->
  let before := spam_patterns (spam_detector bot) in
  let after :=
    spam_patterns
      (spam_detector (bot_after (delete_spam_pattern ctx pattern env bot))) in
  (forall q,
     count q after =
     (count q before - if pystr_eqb q (str_lower pattern) then 1 else 0)%nat) /\
  ((2 <= count (str_lower pattern) before)%nat ->
   In (str_lower pattern) after).
Proof.
  intros Hp before after.
  assert (Hcount : forall q,
     count q after =
     (count q before - if pystr_eqb q (str_lower pattern) then 1 else 0)%nat).
  { intros q. unfold after, before.
    destruct (mem (str_lower pattern) (spam_patterns (spam_detector bot)))
      eqn:Hm.
    - rewrite delete_spam_pattern_privileged by assumption.
      unfold saved_and_told, bot_after. cbn [fst snd].
      cbn [set_spam_patterns spam_detector spam_patterns].
      rewrite count_list_remove, Hm. reflexivity.
    - rewrite delete_spam_pattern_absent by assumption.
      unfold told_only, bot_after. cbn [fst snd].
      destruct (pystr_eqb q (str_lower pattern)) eqn:E; [|lia].
      apply pystr_eqb_true in E. subst q.
      apply mem_false in Hm. unfold count.
      rewrite (proj1 (count_occ_not_In _ _ _) Hm). reflexivity. }
  split; [exact Hcount|]. intros H2.
  specialize (Hcount (str_lower pattern)). rewrite pystr_eqb_refl in Hcount.
  unfold count in *.
  apply (count_occ_In (list_eq_dec N.eq_dec)). lia.
Qed.

(** X10.  [addresponse] by a privileged author is an upsert on the
    lowercased trigger: afterwards the trigger is mapped to the new response,
    every other entry is as before, and unique keys stay unique.  A trigger
    that was there keeps its place in the order of the keys; a new one goes
    last. *)
Theorem add_response_upserts ctx trigger response env bot :
  privileged ctx = true ->
  let key := str_lower trigger in
  let before := word_responses bot in
  let after :=
    word_responses (bot_after (add_response ctx trigger response env bot)) in
  In (key, response) after /\
  (forall k v, k <> key -> (In (k, v) after <-> In (k, v) before)) /\
  (NoDup (map fst before) -> NoDup (map fst after)) /\
  (dict_contains key before = true -> map fst after = map fst before) /\
  (dict_contains key before = false -> after = before ++ [(key, response)]).
Proof.
  intros Hp key before after. unfold after.
  rewrite add_response_privileged by exact Hp.
  unfold saved_and_told, bot_after. cbn [fst snd].
  cbn [set_word_responses word_responses]. fold key before.
  split; [apply dict_set_In|].
  split; [intros k v Hne; apply dict_set_other; exact Hne|].
  split; [apply dict_set_NoDup|].
  split; [apply dict_set_keys | apply dict_set_absent].
Qed.

(** X11.  [addresponse] of a trigger that had no entry, followed by
    [delresponse] of the same trigger, gives back the bot as it was. *)
Theorem addresponse_delresponse_round_trip ctx trigger response env1 env2 bot :
  privileged ctx = true ->
  (forall v, ~ In (str_lower trigger, v) (word_responses bot)) ->
  bot_after
    (delete_response ctx trigger env2
       (bot_after (add_response ctx trigger response env1 bot)))
  = bot.
Proof.
  intros Hp Habs. apply dict_contains_false in Habs.
  rewrite add_response_privileged by exact Hp.
  unfold saved_and_told at 1. unfold bot_after at 2. cbn [fst snd].
  rewrite delete_response_privileged; [|exact Hp|].
  - unfold saved_and_told, bot_after. cbn [fst snd].
    cbn [set_word_responses word_responses].
    rewrite dict_del_set_absent by exact Habs.
    destruct bot. reflexivity.
  - cbn [set_word_responses word_responses].
    apply dict_contains_In. exists response. apply dict_set_In.
Qed.

(** X12.  [delresponse] by a privileged author, on trigger words with
    unique keys, removes the entry of the lowercased trigger and no other:
    afterwards the trigger has no entry, and the other entries are the ones
    that were there. *)
Theorem delete_response_removes ctx trigger env bot :
  privileged ctx = true ->
  NoDup (map fst (word_responses bot)) ->
  let after :=
    word_responses (bot_after (delete_response ctx trigger env bot)) in
  (forall v, ~ In (str_lower trigger, v) after) /\
  (forall k v, k <> str_lower trigger ->
     (In (k, v) after <-> In (k, v) (word_responses bot))).
Proof.
  intros Hp Hnd after.
  assert (H : forall k v,
            In (k, v) after <->
            In (k, v) (word_responses bot) /\ k <> str_lower trigger).
  { intros k v. unfold after.
    destruct (dict_contains (str_lower trigger) (word_responses bot)) eqn:E.
    - rewrite delete_response_privileged by assumption.
      unfold saved_and_told, bot_after. cbn [fst snd].
      cbn [set_word_responses word_responses]. apply dict_del_In. exact Hnd.
    - rewrite delete_response_absent by assumption.
      unfold told_only, bot_after. cbn [fst snd].
      split; [|tauto]. intros Hin. split; [exact Hin|]. intros ->.
      exact (proj1 (dict_contains_false _ _) E v Hin). }
  split.
  - intros v Hin. apply H in Hin as [_ Hne]. congruence.
  - intros k v Hne. rewrite H. tauto.
Qed.

End ConfigurationCommands.

(** ** What every command and every message leaves alone *)

(** The settings no handler assigns to. *)
Definition same_settings (bot bot' : WordMonitorBot) : Prop :=
  channels bot' = channels bot /\
  response_delay bot' = response_delay bot /\
  config_path bot' = config_path bot /\
  min_similarity (spam_detector bot') = min_similarity (spam_detector bot).

(** The calls a command makes: writes of the configuration and replies. *)
Definition is_command_action (a : action) : bool :=
  match a with
  | WriteConfig _ _ => true
  | Send CommandReply _ _ => true
  | _ => false
  end.

Definition is_write (a : action) : bool :=
  match a with
  | WriteConfig _ _ => true
  | _ => false
  end.

Definition save_failed : pystr := str "Failed to save configuration".

Lemma same_settings_refl bot : same_settings bot bot.
Proof. repeat split. Qed.

Lemma same_settings_trans b1 b2 b3 :
  same_settings b1 b2 -> same_settings b2 b3 -> same_settings b1 b3.
Proof.
  unfold same_settings. intros [? [? [? ?]]] [? [? [? ?]]].
  repeat split; congruence.
Qed.

Section Frames.
Context {U : UnicodeDB}.

(** The three ways a command ends, each the same in every environment. *)
Lemma invoke_cases ctx c bot :
  (forall env, invoke ctx c env bot = (Return tt, bot, [])) \/
  (exists bot' told,
     (forall env, invoke ctx c env bot = saved_and_told ctx bot' told env) /\
     same_settings bot bot' /\
     last_response_time bot' = last_response_time bot /\
     told <> save_failed) \/
  (exists told,
     (forall env, invoke ctx c env bot = told_only ctx bot told env) /\
     told <> save_failed).
Proof.
  destruct (privileged ctx) eqn:Hp;
    [|left; intros env; apply invoke_unprivileged; exact Hp].
  right.
  destruct c as [trigger response|trigger| |pattern|pattern|]; cbn [invoke].
  - left. eexists. eexists. split;
      [intros env; apply add_response_privileged; exact Hp|].
    repeat split. apply hd_differs. discriminate.
  - destruct (dict_contains (str_lower trigger) (word_responses bot)) eqn:E.
    + left. eexists. eexists. split;
        [intros env; apply delete_response_privileged; assumption|].
      repeat split. apply hd_differs. discriminate.
    + right. eexists. split;
        [intros env; apply delete_response_absent; assumption|].
      apply hd_differs. discriminate.
  - right. eexists. split;
      [intros env; apply list_responses_privileged; exact Hp|].
    destruct (word_responses bot); apply hd_differs; discriminate.
  - left. eexists. eexists. split;
      [intros env; apply add_spam_pattern_privileged; exact Hp|].
    repeat split. apply hd_differs. discriminate.
  - destruct (mem (str_lower pattern) (spam_patterns (spam_detector bot)))
      eqn:E.
    + left. eexists. eexists. split;
        [intros env; apply delete_spam_pattern_privileged; assumption|].
      repeat split. apply hd_differs. discriminate.
    + right. eexists. split;
        [intros env; apply delete_spam_pattern_absent; assumption|].
      apply hd_differs. discriminate.
  - right. eexists. split;
      [intros env; apply list_spam_patterns_privileged; exact Hp|].
    apply hd_differs. discriminate.
Qed.

(** X13.  What a command does to the bot does not depend on whether the
    configuration could be written or the reply sent: a failed write does not
    undo the change.  The reply is [Failed to save configuration] exactly
    when the command tried to write the configuration and the write failed. *)
Theorem command_survives_failures ctx c env env' bot :
  bot_after (invoke ctx c env bot) = bot_after (invoke ctx c env' bot) /\
  (In (Send CommandReply (channel_name ctx) save_failed)
      (actions_of (invoke ctx c env bot)) <->
   write_fails env = true /\
   existsb is_write (actions_of (invoke ctx c env bot)) = true).
Proof.
  destruct (invoke_cases ctx c bot)
    as [H|[[bot' [told [H [_ [_ Hne]]]]]|[told [H Hne]]]];
    rewrite !H.
  - split; [reflexivity|]. simpl. split; [intros [] | intros [_ F]; discriminate F].
  - unfold saved_and_told, bot_after, actions_of. cbn [fst snd].
    split; [reflexivity|]. cbn [existsb is_write orb]. split.
    + intros [F|[F|[]]]; [discriminate F|].
      destruct (write_fails env); [split; reflexivity|].
      injection F as F. congruence.
    + intros [Hw _]. rewrite Hw. right. left. reflexivity.
  - unfold told_only, bot_after, actions_of. cbn [fst snd].
    split; [reflexivity|]. cbn [existsb is_write orb]. split.
    + intros [F|[]]. injection F as F. congruence.
    + intros [_ F]. discriminate F.
Qed.

(** X14.  Whenever handling a message writes the configuration, what is
    written is the whole configuration of the bot as the handler leaves it,
    to the path the bot was given; it is written at most once, and only for a
    command of a privileged author. *)
Theorem write_back_in_full message env bot path cfg :
  In (WriteConfig path cfg) (actions_of (event_message message env bot)) ->
  path = config_path bot /\
  cfg = current_config (bot_after (event_message message env bot)) /\
  List.length (filter is_write (actions_of (event_message message env bot)))
  = 1%nat /\
  privileged message = true /\
  startswith (content message) (str "!") = true.
Proof.
  destruct (echo message) eqn:He;
    [rewrite event_message_echo by exact He; intros []|].
  destruct (startswith (content message) (str "!")) eqn:Hc.
  - rewrite event_message_command by assumption.
    destruct (parsed_command env) as [c|]; [|intros []].
    destruct (privileged message) eqn:Hp;
      [|rewrite invoke_unprivileged by exact Hp; intros []].
    destruct (invoke_cases message c bot)
      as [H|[[bot' [told [H [[_ [_ [Hpath _]]] _]]]]|[told [H _]]]];
      rewrite !H.
    + intros [].
    + unfold saved_and_told, bot_after, actions_of. cbn [fst snd].
      intros [F|[F|[]]]; [|discriminate F].
      injection F as <- <-. repeat split. exact Hpath.
    + unfold told_only, actions_of. cbn [snd]. intros [F|[]]. discriminate F.
  - destruct (is_spam (spam_detector bot) (content message)) eqn:Hs.
    + rewrite event_message_spam by assumption. unfold actions_of. cbn [snd].
      destruct (privileged message), (send_raises env); simpl;
        intuition discriminate.
    + rewrite event_message_trigger_stage by assumption.
      destruct (Qltb _ _); [intros []|].
      destruct (for_word_responses_cases (word_responses bot)
                  (split (clean_text (content message))) message env bot)
        as [E|[response E]]; rewrite !E; [intros []|].
      unfold responded, actions_of. cbn [snd]. intros [F|[]]. discriminate F.
Qed.

End Frames.

Section MessageFrames.
Context {U : UnicodeDB}.

Lemma event_message_settings message env bot :
  same_settings bot (bot_after (event_message message env bot)).
Proof.
  destruct (echo message) eqn:He;
    [rewrite event_message_echo by exact He; apply same_settings_refl|].
  destruct (startswith (content message) (str "!")) eqn:Hc.
  - rewrite event_message_command by assumption.
    destruct (parsed_command env) as [c|]; [|apply same_settings_refl].
    destruct (invoke_cases message c bot)
      as [H|[[bot' [told [H [Hs _]]]]|[told [H _]]]]; rewrite H;
      [apply same_settings_refl | exact Hs | apply same_settings_refl].
  - destruct (is_spam (spam_detector bot) (content message)) eqn:Hs.
    + rewrite event_message_spam by assumption. apply same_settings_refl.
    + rewrite event_message_trigger_stage by assumption.
      destruct (Qltb _ _); [apply same_settings_refl|].
      destruct (for_word_responses_cases (word_responses bot)
                  (split (clean_text (content message))) message env bot)
        as [E|[response E]]; rewrite E; [apply same_settings_refl|].
      unfold responded, bot_after. cbn [fst snd].
      destruct (send_raises env); repeat split.
Qed.

(** X15.  No message, command or not, ever changes the channels, the
    response delay, the path of the configuration or [min_similarity], however
    long the bot runs.  A message that is not a command changes neither the
    trigger words nor the spam patterns, writes no configuration and gets no
    reply of a command. *)
Theorem settings_are_kept bot events message env :
  same_settings bot (fst (run bot events)) /\
  (startswith (content message) (str "!") = false ->
   word_responses (bot_after (event_message message env bot))
   = word_responses bot /\
   spam_detector (bot_after (event_message message env bot))
   = spam_detector bot /\
   existsb is_command_action (actions_of (event_message message env bot))
   = false).
Proof.
  split.
  - revert bot. induction events as [|[m e] events IH]; intros bot;
      [apply same_settings_refl|].
    cbn [run]. pose proof (event_message_settings m e bot) as H.
    destruct (event_message m e bot) as [[r bot'] acts].
    unfold bot_after in H. cbn [fst snd] in H.
    specialize (IH bot'). destruct (run bot' events) as [bot'' acts'].
    cbn [fst] in IH |- *. eapply same_settings_trans; eassumption.
  - intros Hc. destruct (echo message) eqn:He;
      [rewrite event_message_echo by exact He; repeat split|].
    destruct (is_spam (spam_detector bot) (content message)) eqn:Hs.
    + rewrite event_message_spam by assumption.
      destruct (privileged message), (send_raises env); repeat split.
    + rewrite event_message_trigger_stage by assumption.
      destruct (Qltb _ _); [repeat split|].
      destruct (for_word_responses_cases (word_responses bot)
                  (split (clean_text (content message))) message env bot)
        as [E|[response E]]; rewrite E; [repeat split|].
      unfold responded, bot_after, actions_of. cbn [fst snd].
      destruct (send_raises env); repeat split.
Qed.

(** X16.  A message that starts with [!] is handed to the commands and to
    nothing else: whatever its text and its author, it is not tested for
    spam, so nobody is timed out and nothing is deleted, and it gets no
    trigger response; the cooldown is as it was. *)
Theorem commands_skip_moderation message env bot :
  startswith (content message) (str "!") = true ->
  forallb is_command_action (actions_of (event_message message env bot))
  = true /\
  last_response_time (bot_after (event_message message env bot))
  = last_response_time bot.
Proof.
  intros Hc. destruct (echo message) eqn:He;
    [rewrite event_message_echo by exact He; split; reflexivity|].
  rewrite event_message_command by assumption.
  destruct (parsed_command env) as [c|]; [|split; reflexivity].
  destruct (invoke_cases message c bot)
    as [H|[[bot' [told [H [_ [Hl _]]]]]|[told [H _]]]]; rewrite !H.
  - split; reflexivity.
  - unfold saved_and_told, bot_after, actions_of. cbn [fst snd].
    split; [reflexivity | exact Hl].
  - split; reflexivity.
Qed.

Lemma event_message_last message env bot :
  last_response_time (bot_after (event_message message env bot))
  = last_response_time bot \/
  (last_response_time (bot_after (event_message message env bot))
   = clock env /\
   result_of (event_message message env bot) = Return tt /\
   trigger_responses (actions_of (event_message message env bot)) <> []).
Proof.
  destruct (echo message) eqn:He;
    [rewrite event_message_echo by exact He; left; reflexivity|].
  destruct (startswith (content message) (str "!")) eqn:Hc.
  - left. rewrite event_message_command by assumption.
    destruct (parsed_command env) as [c|]; [|reflexivity].
    apply invoke_cooldown.
  - destruct (is_spam (spam_detector bot) (content message)) eqn:Hs.
    + rewrite event_message_spam by assumption. left. reflexivity.
    + rewrite event_message_trigger_stage by assumption.
      destruct (Qltb _ _); [left; reflexivity|].
      destruct (for_word_responses_cases (word_responses bot)
                  (split (clean_text (content message))) message env bot)
        as [E|[response E]]; rewrite !E; [left; reflexivity|].
      unfold responded, bot_after, result_of, actions_of. cbn [fst snd].
      destruct (send_raises env); [left; reflexivity|].
      right. repeat split. discriminate.
Qed.

(** X17.  [last_response_time] moves only when a trigger response was sent
    and the send returned, and then to the time of that message: after any
    run of messages it is what it was at the start or the clock of one of the
    messages handled. *)
Theorem last_response_time_only_fires bot events message env :
  (last_response_time (bot_after (event_message message env bot))
   <> last_response_time bot ->
   last_response_time (bot_after (event_message message env bot))
   = clock env /\
   result_of (event_message message env bot) = Return tt /\
   trigger_responses (actions_of (event_message message env bot)) <> []) /\
  (last_response_time (fst (run bot events)) = last_response_time bot \/
   exists m e, In (m, e) events /\
               last_response_time (fst (run bot events)) = clock e).
Proof.
  split.
  - intros Hne. destruct (event_message_last message env bot) as [H|H];
      [congruence | exact H].
  - revert bot. induction events as [|[m e] events IH]; intros bot;
      [left; reflexivity|].
    cbn [run]. pose proof (event_message_last m e bot) as H.
    destruct (event_message m e bot) as [[r bot'] acts].
    unfold bot_after in H. cbn [fst snd] in H.
    specialize (IH bot'). destruct (run bot' events) as [bot'' acts'].
    cbn [fst] in IH |- *.
    destruct IH as [IH|[m' [e' [Hin IH]]]].
    + rewrite IH. destruct H as [H|[H _]]; [left; exact H|].
      right. exists m, e. split; [left; reflexivity | exact H].
    + right. exists m', e'. split; [right; exact Hin | exact IH].
Qed.

Lemma join_part sep w ws :
  In w ws -> exists l r, join sep ws = l ++ w ++ r.
Proof.
  induction ws as [|w' ws IH]; [intros []|].
  destruct ws as [|w'' ws].
  - intros [->|[]]. exists [], []. cbn [join]. rewrite app_nil_r. reflexivity.
  - rewrite join_cons by discriminate. intros [->|H].
    + exists []. eexists. reflexivity.
    + destruct (IH H) as [l [r E]]. rewrite E.
      exists (w' ++ sep ++ l), r. rewrite <- !app_assoc. reflexivity.
Qed.

(** X18.  The two listing commands of a privileged author change nothing
    and write nothing: they send one reply, and that reply holds every
    trigger word with its response, respectively every spam pattern. *)
Theorem listings_are_complete ctx env bot :
  privileged ctx = true ->
  (exists text,
     list_responses ctx env bot = told_only ctx bot text env /\
     forall k v, In (k, v) (word_responses bot) ->
                 exists l r, text = l ++ (k ++ str ": " ++ v) ++ r) /\
  (exists text,
     list_spam_patterns ctx env bot = told_only ctx bot text env /\
     forall p, In p (spam_patterns (spam_detector bot)) ->
               exists l r, text = l ++ p ++ r).
Proof.
  intros Hp. split; eexists.
  - split; [apply list_responses_privileged; exact Hp|].
    intros k v Hin. destruct (word_responses bot) as [|kv d] eqn:E;
      [destruct Hin|]. rewrite <- E in *.
    destruct (join_part (str ", ") (k ++ str ": " ++ v)
                (map (fun kv => fst kv ++ str ": " ++ snd kv)
                     (word_responses bot))) as [l [r Hj]].
    { apply in_map_iff. exists (k, v). split; [reflexivity | exact Hin]. }
    rewrite Hj. exists (str "Current responses: " ++ l), r.
    rewrite <- !app_assoc. reflexivity.
  - split; [apply list_spam_patterns_privileged; exact Hp|].
    intros p Hin.
    destruct (join_part (str ", ") p (spam_patterns (spam_detector bot)) Hin)
      as [l [r Hj]].
    rewrite Hj. exists (str "Current spam patterns: " ++ l), r.
    rewrite <- !app_assoc. reflexivity.
Qed.

End MessageFrames.

(** ** load_config and main *)

(** What [yaml.safe_load] makes of the configuration file, for a file whose
    values have the types the bot expects: a mapping in which each of the
    four keys is there or not.  Keys that the bot does not read are left
    out. *)
Record ConfigMapping := {
  yaml_channels : option (list pystr);
  yaml_word_responses : option dict;
  yaml_spam_patterns : option (list pystr);
  yaml_response_delay : option Q
}.

(** The file cannot be opened or parsed (an exception, which [load_config]
    catches), it holds something that is no mapping, or it holds a mapping. *)
Inductive ConfigFile :=
| Unreadable
| NotAMapping
| Mapping (m : ConfigMapping).

(** [config.setdefault(key, default)] on one key. *)
Definition setdefault {A} (value : option A) (default : A) : A :=
  match value with
  | Some a => a
  | None => default
  end.

Definition load_config (file : ConfigFile) : option Config :=
  match file with
  | Unreadable => None
  | NotAMapping => None
  | Mapping config =>
      match yaml_channels config with
      | None => None
      | Some chans =>
          Some {| cfg_channels := chans;
                  cfg_word_responses :=
                    setdefault (yaml_word_responses config) [];
                  cfg_spam_patterns :=
                    setdefault (yaml_spam_patterns config) [str "casino"];
                  cfg_response_delay :=
                    setdefault (yaml_response_delay config) 1%Q |}
      end
  end.

(** [main], up to [bot.run()]: the bot that is started, if one is. *)
Definition main {U : UnicodeDB} (file : ConfigFile) : option WordMonitorBot :=
  match load_config file with
  | None => None
  | Some config =>
      Some (WordMonitorBot_init (cfg_channels config)
              (cfg_word_responses config) (cfg_spam_patterns config)
              (cfg_response_delay config) (str "config.yml"))
  end.

Section Startup.
Context {U : UnicodeDB}.

(** X19.  [main] starts a bot exactly when the configuration file holds a
    mapping with a [channels] key (an empty list of channels will do).  The
    bot starts with [last_response_time] 0; the keys that are there give its
    trigger words, its delay and, lowercased, its spam patterns; without
    [word_responses] it has no trigger word, without [response_delay] the
    delay is 1, and without [spam_patterns] a message is spam exactly when
    its cleaned text holds [casino]. *)
Theorem main_defaults file :
  (main file = None <->
   forall config, file = Mapping config -> yaml_channels config = None) /\
  (forall config chans,
     file = Mapping config -> yaml_channels config = Some chans ->
     exists bot,
       main file = Some bot /\
       channels bot = chans /\
       last_response_time bot = 0%Q /\
       (forall d, yaml_word_responses config = Some d ->
                  word_responses bot = d) /\
       (yaml_word_responses config = None -> word_responses bot = []) /\
       (forall q, yaml_response_delay config = Some q ->
                  response_delay bot = q) /\
       (yaml_response_delay config = None -> response_delay bot = 1%Q) /\
       (forall l, yaml_spam_patterns config = Some l ->
                  spam_patterns (spam_detector bot) = map str_lower l) /\
       (yaml_spam_patterns config = None ->
        forall message,
          is_spam (spam_detector bot) message
          = contains (clean_text message) (str "casino"))).
Proof.
  split.
  - unfold main, load_config. destruct file as [| |config].
    + split; [intros _ config F; discriminate F | reflexivity].
    + split; [intros _ config F; discriminate F | reflexivity].
    + destruct (yaml_channels config) as [chans|] eqn:E.
      * split; [discriminate|]. intros H.
        specialize (H config eq_refl). congruence.
      * split; [|reflexivity]. intros _ config' F. injection F as <-. exact E.
  - intros config chans -> Hch. unfold main, load_config. rewrite Hch.
    eexists. split; [reflexivity|].
    unfold WordMonitorBot_init, SpamDetector_init, is_spam.
    cbn [channels last_response_time word_responses response_delay
         spam_detector spam_patterns cfg_channels cfg_word_responses
         cfg_spam_patterns cfg_response_delay].
    repeat split; try (intros ? E; rewrite E; reflexivity);
      try (intros E; rewrite E; reflexivity).
    intros E message. rewrite E. cbn [setdefault map existsb]. cbv zeta.
    rewrite str_lower_ascii by reflexivity. apply orb_false_r.
Qed.

End Startup.

(** ** The further properties on the sample chat *)

Definition helper_says (text : pystr) : Message :=
  chat_message (str "helper") true text.

(** X7 holds here. *)
Lemma add_spam_pattern_grows_witness :
  spam_patterns
    (spam_detector
       (bot_after (add_spam_pattern (helper_says (str "!addspam Bitcoin"))
                     (str "Bitcoin") (at_time 10 None) sample_bot)))
  = [str "casino"; str "bitcoin"].
Proof.
  apply (proj1 (add_spam_pattern_grows (U := UCD_excerpt)
                  (helper_says (str "!addspam Bitcoin")) (str "Bitcoin")
                  (at_time 10 None) sample_bot eq_refl)).
Defined.

(** X8 holds here, the first write failing. *)
Lemma addspam_delspam_round_trip_witness :
  bot_after
    (delete_spam_pattern (helper_says (str "!delspam Bitcoin")) (str "Bitcoin")
       (at_time 11 None)
       (bot_after (add_spam_pattern (helper_says (str "!delspam Bitcoin"))
                     (str "Bitcoin")
                     {| clock := 10; send_raises := false;
                        delete_raises := false; write_fails := true;
                        parsed_command := None |}
                     sample_bot)))
  = sample_bot.
Proof.
  apply (addspam_delspam_round_trip (U := UCD_excerpt)); [reflexivity|].
  vm_compute. intros [H|[]]. discriminate H.
Defined.

(** X9 holds here: [casino] was stored twice and is still stored. *)
Lemma delspam_removes_one_witness :
  In (str "casino")
     (spam_patterns
        (spam_detector
           (bot_after
              (delete_spam_pattern (helper_says (str "!delspam Casino"))
                 (str "Casino") (at_time 10 None)
                 (set_spam_patterns [str "casino"; str "free"; str "casino"]
                                    sample_bot))))).
Proof.
  apply (proj2 (delspam_removes_one (U := UCD_excerpt)
                  (helper_says (str "!delspam Casino")) (str "Casino")
                  (at_time 10 None)
                  (set_spam_patterns [str "casino"; str "free"; str "casino"]
                                     sample_bot) eq_refl)).
  vm_compute. constructor.
Defined.

(** X10 holds here. *)
Lemma add_response_upserts_witness :
  In (str "hello", str "Welcome")
     (word_responses
        (bot_after (add_response (helper_says (str "!addresponse Hello Welcome"))
                      (str "Hello") (str "Welcome") (at_time 10 None)
                      sample_bot))).
Proof.
  apply (proj1 (add_response_upserts (U := UCD_excerpt)
                  (helper_says (str "!addresponse Hello Welcome"))
                  (str "Hello") (str "Welcome") (at_time 10 None) sample_bot
                  eq_refl)).
Defined.

(** X11 holds here. *)
Lemma addresponse_delresponse_round_trip_witness :
  bot_after
    (delete_response (helper_says (str "!delresponse Go")) (str "Go")
       (at_time 11 None)
       (bot_after (add_response (helper_says (str "!delresponse Go"))
                     (str "Go") (str "bye") (at_time 10 None) sample_bot)))
  = sample_bot.
Proof.
  apply (addresponse_delresponse_round_trip (U := UCD_excerpt));
    [reflexivity|].
  intros v. vm_compute. intros [H|[H|[]]]; discriminate H.
Defined.

(** X12 holds here. *)
Lemma delete_response_removes_witness :
  ~ In (str "bye", str "See you")
       (word_responses
          (bot_after (delete_response (helper_says (str "!delresponse BYE"))
                        (str "BYE") (at_time 10 None) sample_bot))).
Proof.
  refine (proj1 (delete_response_removes (U := UCD_excerpt)
                  (helper_says (str "!delresponse BYE")) (str "BYE")
                  (at_time 10 None) sample_bot eq_refl
                  ltac:(vm_compute; repeat constructor;
                        simpl; intuition discriminate)) (str "See you")).
Defined.

(** X14 holds here: the moderator's [addresponse] writes the new
    configuration once. *)
Lemma write_back_in_full_witness :
  List.length
    (filter is_write
       (actions_of
          (event_message (helper_says (str "!addresponse go bye"))
             (at_time 10 (Some (addresponse (str "go") (str "bye"))))
             sample_bot)))
  = 1%nat.
Proof.
  apply (write_back_in_full (U := UCD_excerpt)
           (helper_says (str "!addresponse go bye"))
           (at_time 10 (Some (addresponse (str "go") (str "bye"))))
           sample_bot (str "config.yml")
           {| cfg_channels := [str "somechannel"];
              cfg_word_responses :=
                [(str "hello", str "Hi there!"); (str "bye", str "See you");
                 (str "go", str "bye")];
              cfg_spam_patterns := [str "casino"];
              cfg_response_delay := 3%Q |}).
  left. reflexivity.
Defined.

(** X16 holds here: a viewer's message that starts with [!] and holds a
    spam pattern and a trigger word has no effect. *)
Lemma commands_skip_moderation_witness :
  forallb is_command_action
    (actions_of
       (event_message
          (chat_message (str "viewer") false (str "!hello best casino bonus"))
          (at_time 10 None) sample_bot))
  = true.
Proof.
  apply (commands_skip_moderation (U := UCD_excerpt)
           (chat_message (str "viewer") false (str "!hello best casino bonus"))
           (at_time 10 None) sample_bot).
  reflexivity.
Defined.

(** X18 holds here. *)
Lemma listings_are_complete_witness :
  exists text,
    list_responses (helper_says (str "!responses")) (at_time 10 None) sample_bot
    = told_only (helper_says (str "!responses")) sample_bot text
                (at_time 10 None) /\
    exists l r, text = l ++ str "bye: See you" ++ r.
Proof.
  destruct (listings_are_complete (U := UCD_excerpt)
              (helper_says (str "!responses")) (at_time 10 None) sample_bot
              eq_refl) as [[text [E H]] _].
  exists text. split; [exact E|].
  apply (H (str "bye") (str "See you")). right. left. reflexivity.
Defined.

(** The reply of [responses] on the sample bot. *)
Lemma responses_reply :
  list_responses (helper_says (str "!responses")) (at_time 10 None) sample_bot
  = (Return tt, sample_bot,
     [Send CommandReply (str "somechannel")
           (str "Current responses: hello: Hi there!, bye: See you")]).
Proof. reflexivity. Qed.

(** X19 holds of the smallest file that starts a bot. *)
Lemma main_defaults_witness :
  exists bot,
    main (Mapping {| yaml_channels := Some [];
                     yaml_word_responses := None;
                     yaml_spam_patterns := None;
                     yaml_response_delay := None |}) = Some bot /\
    channels bot = [] /\ response_delay bot = 1%Q.
Proof.
  destruct (proj2 (main_defaults (U := UCD_excerpt)
                     (Mapping {| yaml_channels := Some [];
                                 yaml_word_responses := None;
                                 yaml_spam_patterns := None;
                                 yaml_response_delay := None |}))
                  _ [] eq_refl eq_refl)
    as [bot [H1 [H2 [_ [_ [_ [_ [H3 _]]]]]]]].
  exists bot. repeat split; [exact H1 | exact H2 | apply H3; reflexivity].
Defined.

(** ** When clean_text is idempotent, and what its output is like *)

Lemma split_from_keeps word s c :
  In c (word ++ s) -> is_space c = false ->
  exists w, In w (split_from word s) /\ In c w.
Proof.
  revert word. induction s as [|a s IH]; intros word Hin Hc.
  - rewrite app_nil_r in Hin. destruct word as [|x word]; [destruct Hin|].
    eexists. split; [left; reflexivity | exact Hin].
  - cbn [split_from]. destruct (is_space a) eqn:E.
    + apply in_app_or in Hin as [Hin|[->|Hin]]; [| congruence |].
      * destruct word as [|x word]; [destruct Hin|].
        eexists. split; [left; reflexivity | exact Hin].
      * destruct (IH [] Hin Hc) as [w [Hw Hcw]].
        exists w. split; [|exact Hcw].
        destruct word; [exact Hw | right; exact Hw].
    + apply IH; [|exact Hc]. rewrite <- app_assoc. exact Hin.
Qed.

Lemma is_upper_plain c :
  is_upper c = true -> is_punct c = false /\ is_space c = false.
Proof.
  unfold is_upper. intros H. apply andb_prop in H as [H1 H2].
  apply N.leb_le in H1, H2. split.
  - unfold is_punct, punctuation. simpl.
    repeat match goal with
           | |- context [(?n =? ?m)] => destruct (N.eqb_spec n m); [lia|]
           end.
    reflexivity.
  - unfold is_space.
    destruct (N.leb_spec 9 c), (N.leb_spec c 13), (N.leb_spec 28 c),
      (N.leb_spec c 31), (N.eqb_spec c 32); simpl; try reflexivity; lia.
Qed.

Lemma join_no_repeats_words ws :
  no_repeats (join space ws) = true ->
  Forall (fun w => no_repeats w = true) ws.
Proof.
  unfold no_repeats. induction ws as [|w ws IH]; [constructor|].
  destruct ws as [|w' ws]; [intros H; repeat constructor; exact H|].
  rewrite join_cons by discriminate. intros H. constructor.
  - eapply adjacent_app_l. exact H.
  - apply IH. apply adjacent_app_r in H.
    change (space ++ join space (w' :: ws)) with (32 :: join space (w' :: ws))
      in H.
    eapply adjacent_cons. exact H.
Qed.

(** Words without equal neighbours come from text in which equal
    neighbours are whitespace. *)
Lemma split_from_no_repeats_text word s :
  (forall c, In c word -> is_space c = false) ->
  Forall (fun w => no_repeats w = true) (split_from word s) ->
  adjacent (fun a b => negb (a =? b) || is_space a) (word ++ s) = true.
Proof.
  assert (Hw : forall w, no_repeats w = true ->
            adjacent (fun a b => negb (a =? b) || is_space a) w = true).
  { intros w. apply adjacent_weaken. intros a b _ H. rewrite H. reflexivity. }
  revert word. induction s as [|a s IH]; intros word Hword Hall.
  - rewrite app_nil_r. destruct word as [|x word]; [reflexivity|].
    apply Hw. inversion Hall; assumption.
  - cbn [split_from] in Hall. destruct (is_space a) eqn:E.
    + assert (Hs : adjacent (fun a b => negb (a =? b) || is_space a) (a :: s)
                   = true).
      { assert (Hs' : adjacent (fun a b => negb (a =? b) || is_space a) s
                      = true).
        { apply (IH []); [intros c []|].
          destruct word; [exact Hall | inversion Hall; assumption]. }
        destruct s as [|b s]; [reflexivity|].
        cbn [adjacent]. rewrite E, orb_true_r. exact Hs'. }
      apply adjacent_glue; [|exact Hs|].
      * destruct word as [|x word]; [reflexivity|].
        apply Hw. inversion Hall; assumption.
      * intros c Hc. specialize (Hword c Hc).
        destruct (N.eqb_spec c a) as [->|_]; [congruence | reflexivity].
    + replace (word ++ a :: s) with ((word ++ [a]) ++ s)
        by (rewrite <- app_assoc; reflexivity).
      apply IH; [|exact Hall]. intros c Hc.
      apply in_app_or in Hc as [Hc|[<-|[]]]; [apply Hword; exact Hc | exact E].
Qed.

Section CorrectedTextClaims.
Context {U : UnicodeDB}.

(** Characters that are neither punctuation nor whitespace survive. *)
Lemma clean_text_keeps x c :
  In c (ascii_fold x) -> is_punct c = false -> is_space c = false ->
  In c (clean_text x).
Proof.
  intros Hin Hp Hs. rewrite clean_text_eq.
  assert (Ht : In c (strip_punct (collapse_repeats (ascii_fold x)))).
  { apply filter_In. split; [apply collapse_repeats_keeps; exact Hin|].
    rewrite Hp. reflexivity. }
  destruct (split_from_keeps [] _ c Ht Hs) as [w [Hw Hc]].
  destruct (join_part space w _ Hw) as [l [r E]].
  unfold split. rewrite E. apply in_or_app. right. apply in_or_app. left.
  exact Hc.
Qed.

Lemma clean_text_lowercase_eq x :
  lowercase_only (clean_text x) = lowercase_only (ascii_fold x).
Proof.
  apply eq_true_iff_eq. split; [|apply clean_text_lowercase_only].
  intros H. apply forallb_In. intros c Hc.
  destruct (is_upper c) eqn:E; [|reflexivity].
  destruct (is_upper_plain c E) as [Hp Hs].
  pose proof (proj1 (forallb_In _ _) H c (clean_text_keeps x c Hc Hp Hs)) as F.
  cbv beta in F. rewrite E in F. discriminate F.
Qed.

Lemma clean_text_no_repeats_eq x :
  no_repeats (clean_text x) =
  adjacent (fun a b => negb (a =? b) || is_space a)
           (strip_punct (collapse_repeats (ascii_fold x))).
Proof.
  apply eq_true_iff_eq. rewrite clean_text_eq. split.
  - intros H. apply join_no_repeats_words in H.
    apply (@split_from_no_repeats_text [] _); [intros c [] | exact H].
  - intros H. unfold no_repeats. apply join_words_adjacent.
    + intros a Ha.
      destruct (N.eqb_spec a 32) as [->|Hne]; [discriminate Ha|].
      destruct (N.eqb_spec 32 a) as [<-|_]; [congruence | auto].
    + apply split_from_words. intros c [].
    + apply split_from_no_repeats; [intros c [] | exact H].
Qed.

(** C1, as amended.  [clean_text (clean_text x) = clean_text x] holds
    exactly when [clean_text x] holds no uppercase letter and no two equal
    neighbours, that is, unless deleting punctuation has brought two equal
    characters together or NFKD has brought back an uppercase letter; and a
    second pass always settles the text: a third changes nothing. *)
Theorem clean_text_idempotent x :
  (clean_text (clean_text x) = clean_text x <->
   lowercase_only (clean_text x) = true /\ no_repeats (clean_text x) = true) /\
  clean_text (clean_text (clean_text x)) = clean_text (clean_text x).
Proof.
  pose proof (clean_text_twice_normalized x) as Htwice.
  split; [split|].
  - intros E. rewrite E in Htwice. unfold NormalizedText in Htwice.
    repeat (apply andb_prop in Htwice as [Htwice ?]). split; assumption.
  - intros [Hlow Hrep]. apply clean_text_fixed. unfold NormalizedText.
    rewrite Hlow, Hrep, clean_text_ascii_only, clean_text_no_punct.
    rewrite clean_text_single_spaced, clean_text_trimmed. reflexivity.
  - apply clean_text_fixed. exact Htwice.
Qed.

(** C3, as amended.  For every input string the output of [clean_text] is
    ASCII only, holds no character of the punctuation class, has its
    whitespace collapsed to single spaces and none at either end.  It is
    lowercase only exactly when the first three lines leave no uppercase
    letter, as they do for every ASCII input.  It holds no two equal
    neighbours exactly when deleting the punctuation from the text with its
    repeats collapsed leaves no two equal neighbours that are not whitespace,
    as is the case when there is no punctuation to delete. *)
Theorem clean_text_normalizes x :
  ascii_only (clean_text x) = true /\
  no_punct (clean_text x) = true /\
  single_spaced (clean_text x) = true /\
  trimmed (clean_text x) = true /\
  lowercase_only (clean_text x) = lowercase_only (ascii_fold x) /\
  (ascii_only x = true -> lowercase_only (clean_text x) = true) /\
  no_repeats (clean_text x) =
    adjacent (fun a b => negb (a =? b) || is_space a)
             (strip_punct (collapse_repeats (ascii_fold x))) /\
  (no_punct (ascii_fold x) = true -> no_repeats (clean_text x) = true).
Proof.
  repeat split.
  - apply clean_text_ascii_only.
  - apply clean_text_no_punct.
  - apply clean_text_single_spaced.
  - apply clean_text_trimmed.
  - apply clean_text_lowercase_eq.
  - apply clean_text_lowercase_of_ascii.
  - apply clean_text_no_repeats_eq.
  - apply clean_text_no_repeats.
Qed.

End CorrectedTextClaims.

(** C1 holds of this input, punctuation and all: the cleaned text [so col]
    has no uppercase letter and no two equal neighbours. *)
Lemma clean_text_idempotent_witness :
  clean_text (clean_text (str "soooo coooool!!"))
  = clean_text (str "soooo coooool!!").
Proof.
  apply (proj2 (proj1 (clean_text_idempotent (str "soooo coooool!!")))).
  split; reflexivity.
Defined.

(** C3 holds of this input: every part of being normalized is read off the
    theorem, the last two from what the first lines of [clean_text] leave. *)
Lemma clean_text_normalizes_witness :
  NormalizedText (clean_text (str " Hello,   World!! ")) = true.
Proof.
  destruct (clean_text_normalizes (str " Hello,   World!! "))
    as [H1 [H2 [H3 [H4 [H5 [_ [H6 _]]]]]]].
  unfold NormalizedText. rewrite H1, H2, H3, H4, H5, H6. reflexivity.
Defined.

(** ** A trigger word typed as it was configured *)

Section TriggerTyped.
Context {U : UnicodeDB}.



End TriggerTyped.

